(** * pareser.py: the sequential structure parser and the answer reconciler

    A shallow embedding of [src/pareser.py].  Python values are modelled as
    the code uses them:

    - a [str] is the list of its Unicode code points, so that [s[:-1]]
      removes one character and not one byte;
    - the task and chapter dictionaries are records, a key that may be
      missing (['answer']) or hold [None] (['task']) is an [option];
    - a raised exception is the [Raise] branch of [result];
    - the loops over an index are fixpoints on a fuel argument; that the
      fuel handed to them always suffices is proved below.

    The module [constants] (the six regular expressions and [ABSENT]) is
    not part of the sources at hand, and [re.search], [int] and
    [str.lower] are the Python library's: they are the variables of
    section [Pareser], and every theorem of the section holds for all of
    them.  Module [Demo] instantiates them to run the program on a small
    document, with the matches listed in a table; module [Scenario]
    gives the three patterns of the reconciler as searches over the
    text, following the scenarios of the specification.

    Outside the model: the document is a sequence of paragraphs (an item
    without [.text], such as a table, is not considered), and the depth of
    the recursion of [find_next_task] is not limited. *)

From Stdlib Require Import ZArith NArith String Ascii List Lia.
From stdpp Require Import base decidable option list.
Import ListNotations.

Local Open Scope Z_scope.

(** ** Python strings *)

Definition char := N.
Definition str := list char.

Fixpoint utf8_aux (bs : list N) (need : nat) (acc : N) : str :=
  match bs with
  | [] => []
  | b :: rest =>
      match need with
      | S k =>
          let acc' := (acc * 64 + b mod 64)%N in
          match k with
          | O => acc' :: utf8_aux rest O 0%N
          | _ => utf8_aux rest k acc'
          end
      | O =>
          if (b <? 128)%N then b :: utf8_aux rest O 0%N
          else if (b <? 224)%N then utf8_aux rest 1%nat (b mod 32)%N
          else if (b <? 240)%N then utf8_aux rest 2%nat (b mod 16)%N
          else utf8_aux rest 3%nat (b mod 8)%N
      end
  end.

(** The code points of a string literal of this file (the file is UTF-8). *)
Definition u (s : string) : str :=
  utf8_aux (map N_of_ascii (list_ascii_of_string s)) O 0%N.
Arguments u s%_string.

(** [str.isspace] for one character (CPython's [_PyUnicode_IsWhitespace]). *)
Definition is_space (c : char) : bool :=
  ((9 <=? c) && (c <=? 13) || (28 <=? c) && (c <=? 32)
   || (c =? 133) || (c =? 160) || (c =? 5760)
   || (8192 <=? c) && (c <=? 8202)
   || (c =? 8232) || (c =? 8233) || (c =? 8239) || (c =? 8287)
   || (c =? 12288))%N.

Fixpoint lstrip (s : str) : str :=
  match s with
  | c :: rest => if is_space c then lstrip rest else s
  | [] => []
  end.

(** [s.strip()] *)
Definition strip (s : str) : str := rev (lstrip (rev (lstrip s))).

(** [s[:-1]] *)
Definition drop_last (s : str) : str := removelast s.

(** [s[:n]] for [n >= 0] *)
Definition slice_to (n : nat) (s : str) : str := take n s.

(** [s.endswith('.')] *)
Definition endswith_dot (s : str) : bool :=
  match last s with
  | Some c => (c =? 46)%N
  | None => false
  end.

Fixpoint uint_chars (d : Decimal.uint) : str :=
  match d with
  | Decimal.Nil => []
  | Decimal.D0 d => 48%N :: uint_chars d
  | Decimal.D1 d => 49%N :: uint_chars d
  | Decimal.D2 d => 50%N :: uint_chars d
  | Decimal.D3 d => 51%N :: uint_chars d
  | Decimal.D4 d => 52%N :: uint_chars d
  | Decimal.D5 d => 53%N :: uint_chars d
  | Decimal.D6 d => 54%N :: uint_chars d
  | Decimal.D7 d => 55%N :: uint_chars d
  | Decimal.D8 d => 56%N :: uint_chars d
  | Decimal.D9 d => 57%N :: uint_chars d
  end.

(** [f'{n}'] for an [int] *)
Definition str_of_int (z : Z) : str :=
  match Z.to_int z with
  | Decimal.Pos d => uint_chars d
  | Decimal.Neg d => 45%N :: uint_chars d
  end.

(** [str.join('\n', data)] *)
Fixpoint join_lines (data : list str) : str :=
  match data with
  | [] => []
  | [s] => s
  | s :: rest => s ++ 10%N :: join_lines rest
  end.

(** ** Exceptions *)

Inductive pyexc :=
| IndexError_list                 (* list index out of range *)
| IndexError_group                (* no such group *)
| TypeError
| AttributeError
| InvalidLiteral (s : str)        (* ValueError raised by int() *)
| ValueError (msg : str)          (* ValueError raised by the parser *)
| ReError.                        (* re.error: the pattern does not compile *)

Inductive result (A : Type) :=
| Ok (a : A)
| Raise (e : pyexc).
Arguments Ok {A} a.
Arguments Raise {A} e.

Definition bind {A B} (r : result A) (k : A -> result B) : result B :=
  match r with
  | Ok a => k a
  | Raise e => Raise e
  end.

Notation "x <- e ;; k" := (bind e (fun x => k))
  (at level 100, e at next level, right associativity).

(** A loop that ran out of fuel has no result ([None]); [lift] runs a
    fallible computation inside such a loop. *)
Definition lift {A B} (r : result A) (k : A -> option (result B))
  : option (result B) :=
  match r with
  | Ok a => k a
  | Raise e => Some (Raise e)
  end.

(** ** Python values that an answer can be *)

Inductive pyval :=
| VNone
| VStr (s : str)
| VInt (z : Z).

#[global] Instance pyval_eq_dec : EqDecision pyval.
Proof. solve_decision. Defined.

(** ** Match objects *)

Record Match := {
  m_group0 : str;                   (* m.group() *)
  m_groups : list (option str);     (* m.group(1), m.group(2), ... *)
  m_end : nat                       (* m.end() *)
}.

(** [m.group(n)] *)
Definition group (m : Match) (n : nat) : result (option str) :=
  match n with
  | O => Ok (Some (m_group0 m))
  | S k =>
      match m_groups m !! k with
      | Some g => Ok g
      | None => Raise IndexError_group
      end
  end.

(** Truth value of a group: [None] and [''] are false. *)
Definition truthy (g : option str) : bool :=
  match g with
  | Some (_ :: _) => true
  | _ => false
  end.

(** [f'{g}'] for a group *)
Definition fmt (g : option str) : str :=
  match g with
  | Some s => s
  | None => u "None"
  end.

(** [g[:-1]] *)
Definition sub_drop_last (g : option str) : result str :=
  match g with
  | Some s => Ok (drop_last s)
  | None => Raise TypeError
  end.

(** [a + b] where [a] is a [str] *)
Definition concat (a : str) (b : option str) : result str :=
  match b with
  | Some s => Ok (a ++ s)
  | None => Raise TypeError
  end.

(** ** Records *)

Record Chapter := {
  chapter_id : Z;          (* 'id' *)
  chapter_name : str;      (* 'name' *)
  chapter_parent : Z       (* 'parent' *)
}.

Record Task := {
  classes : str;
  paragraph : Z;
  topic_id : Z;
  level : Z;
  id_tasks_book : str;
  task : option str;       (* the group may be None *)
  answer : option pyval    (* None: the key is not set *)
}.

Record Author := {
  author_name : str;           (* 'name' *)
  author_description : str;    (* 'description' *)
  author_topic_id : Z;         (* 'topic_id' *)
  author_classes : str         (* 'classes' *)
}.

(** [task['answer'] = v] *)
Definition set_answer (v : pyval) (t : Task) : Task :=
  {| classes := classes t; paragraph := paragraph t; topic_id := topic_id t;
     level := level t; id_tasks_book := id_tasks_book t; task := task t;
     answer := Some v |}.

(** [l[i]] for [i >= 0] *)
Definition index_list {A} (l : list A) (i : nat) : result A :=
  match l !! i with
  | Some x => Ok x
  | None => Raise IndexError_list
  end.

(** [l[-1]] *)
Definition last_item {A} (l : list A) : result A :=
  match last l with
  | Some x => Ok x
  | None => Raise IndexError_list
  end.

(** [m.group(...)] on the result of [re.search], which may be [None] *)
Definition the_match (m : option Match) : result Match :=
  match m with
  | Some m => Ok m
  | None => Raise AttributeError
  end.

(** The static author sheet of [parser]. *)
Definition authors_data : list Author :=
  [ {| author_name :=
         u "Текстовые задачи по математике. 5–6 классы / "
         ++ u "А. В. Шевкин. — 3-е изд., перераб. — М. : "
         ++ u "Илекса, 2024. — 160 с. : ил.";
       author_description :=
         u "Сборник включает текстовые задачи по разделам "
         ++ u "школьной математики: натуральные числа, дроби, пропорции, "
         ++ u "проценты, уравнения. Ко многим задачам даны ответы или советы с "
         ++ u "чего начать решения. Решения некоторых задач приведены в качестве "
         ++ u "образцов в основном тексте книги или в разделе "
         ++ u "«Ответы, советы, решения». "
         ++ u "Материалы сборника можно использовать как "
         ++ u "дополнение к любому действующему "
         ++ u "учебнику. При подготовке этого издания добавлены новые "
         ++ u "задачи и решения некоторых "
         ++ u "задач. Пособие предназначено для учащихся 5–6 классов "
         ++ u "общеобразовательных школ, учителей, "
         ++ u "студентов педагогических вузов.";
       author_topic_id := 1;
       author_classes := u "5;6" |} ].

(** The dictionary that [get_task_data] starts from, with the defaults
    [classes='5;6'], [level=1], [topic_id=1] that every caller leaves
    in place, completed with the two keys set afterwards. *)
Definition task_record (paragraph : Z) (id : str) (text : option str)
  : Task :=
  {| classes := u "5;6"; paragraph := paragraph; topic_id := 1;
     level := 1; id_tasks_book := id; task := text; answer := None |}.

(** [previous] with a ['.'] appended unless it ends in one *)
Definition with_dot (previous : str) : str :=
  if endswith_dot previous then previous else previous ++ u ".".

(** ** A concrete document

    An instance of the variables of section [Pareser] to run the program
    on: a search is looked up in a table of (pattern, text, match)
    entries, and a text that is not listed does not match; [int] reads
    ASCII decimal digits; [lower] maps the capital Latin and Russian
    letters. *)

Module Demo.

Definition RE_ANSWER_TEXT := u "<answer text>".
Definition RE_CHAPTER := u "<chapter>".
Definition RE_PART_ANSWER := u "<part answer>".
Definition RE_SUPREME_CHAPTER := u "<supreme chapter>".
Definition RE_TASK := u "<task>".
Definition RE_TASK_ID := u "<task id>".
Definition ABSENT := VNone.

(** A group that took part in the match, and one that did not. *)
Definition g (s : string) : option str := Some (u s).
Arguments g s%_string.
Definition no : option str := None.

Definition mk (whole : string) (groups : list (option str)) (e : nat)
  : Match :=
  {| m_group0 := u whole; m_groups := groups; m_end := e |}.
Arguments mk whole%_string groups e%_nat.

Definition table := list (str * str * Match).

Definition search_in (tbl : table) (pattern text : str)
  : result (option Match) :=
  match
    list_find
      (fun e : str * str * Match =>
         bool_decide (e.1.1 = pattern) && bool_decide (e.1.2 = text)) tbl
  with
  | Some (_, (_, _, m)) => Ok (Some m)
  | None => Ok None
  end.

Fixpoint digits (s : str) (acc : Z) : option Z :=
  match s with
  | [] => Some acc
  | c :: rest =>
      if ((48 <=? c) && (c <=? 57))%N
      then digits rest (acc * 10 + Z.of_N (c - 48))
      else None
  end.

Definition int_literal (s : str) : option Z := digits s 0.

Definition lower (s : str) : str :=
  map (fun c : char =>
         if ((65 <=? c) && (c <=? 90) || (1040 <=? c) && (c <=? 1071))%N
         then (c + 32)%N else c) s.

(** The answers section of the document below, joined. *)
Definition answers : list str :=
  [ u "14. а) 5; б) 7"; u "15. 42 см" ].

Definition block : str := join_lines answers.

(** The matches of the task pattern on the first two task paragraphs. *)
Definition task_14a : Match :=
  mk "14. а) Сколько?" [g "14."; g "а)"; g " Сколько?"; no; no] 15.
Definition task_b : Match :=
  mk "б) Столько?" [no; no; no; g "б)"; g " Столько?"] 11.
Definition task_v : Match :=
  mk "в) Почему?" [no; no; no; g "в)"; g " Почему?"] 10.

Definition book : table :=
  [ (RE_SUPREME_CHAPTER, u "1. Натуральные числа",
      mk "1. Натуральные числа" [g "1."; g " Натуральные числа"] 20);
    (RE_CHAPTER, u "1.1. Сложение",
      mk "1.1. Сложение" [g "1."; g "1."; g " Сложение"] 13);
    (RE_TASK, u "14. а) Сколько?", task_14a);
    (RE_TASK, u "б) Столько?", task_b);
    (RE_TASK, u "в) Почему?", task_v);
    (RE_TASK, u "15. Где?",
      mk "15. Где?" [g "15."; g ""; g " Где?"; no; no] 8);
    (RE_TASK, u "16. Когда?",
      mk "16. Когда?" [g "16."; g ""; g " Когда?"; no; no] 10);
    (RE_TASK_ID, u "14.а", mk "14.а" [g "14"; g "а"] 4);
    (RE_TASK_ID, u "14.б", mk "14.б" [g "14"; g "б"] 4);
    (RE_TASK_ID, u "14.в", mk "14.в" [g "14"; g "в"] 4);
    (RE_TASK_ID, u "14а", mk "14а" [g "14"; g "а"] 3);
    (RE_TASK_ID, u "14б", mk "14б" [g "14"; g "б"] 3);
    (RE_TASK_ID, u "3а", mk "3а" [g "3"; g "а"] 2);
    (RE_TASK_ID, u "12", mk "12" [no; no] 2);
    (RE_TASK_ID, u "13", mk "13" [no; no] 2);
    (RE_TASK_ID, u "14", mk "14" [no; no] 2);
    (RE_TASK_ID, u "15", mk "15" [no; no] 2);
    (RE_TASK_ID, u "16", mk "16" [no; no] 2);
    (u "14" ++ RE_ANSWER_TEXT, block,
      mk "14. а) 5; б) 7" [g " а) 5; б) 7"] 14);
    (u "15" ++ RE_ANSWER_TEXT, block, mk "15. 42 см" [g " 42 см"] 24);
    (u "12" ++ RE_ANSWER_TEXT, u "12. 42 см",
      mk "12. 42 см" [g " 42 см"] 9);
    (u "а" ++ RE_PART_ANSWER, u "а) 5; б) 7", mk "а) 5;" [g "5"] 5);
    (u "б" ++ RE_PART_ANSWER, u "а) 5; б) 7", mk "б) 7" [g "7"] 10) ].

Definition doc : list str :=
  [ u "1. Натуральные числа"; u " 1.1. Сложение"; u "14. а) Сколько?";
    u "б) Столько?"; u "в) Почему?"; u "15. Где?"; u "16. Когда?";
    u "Ответы и советы";
    u "14. а) 5; б) 7"; u "15. 42 см"; u "Оглавление";
    u "1. Натуральные числа" ].

(** A document whose third paragraph has no recognised structure. *)
Definition doc_unrecognised : list str :=
  [ u "1. Натуральные числа"; u "1.1. Сложение"; u "Просто текст" ].

(** A document that starts with the answers section. *)
Definition doc_answers_first : list str :=
  [ u "Ответы и советы"; u "12. 42 см" ].

(** A document that starts with a task. *)
Definition doc_task_first : list str :=
  [ u "15. Где?"; u "Ответы и советы" ].

(** A document that ends with a task. *)
Definition doc_task_last : list str :=
  [ u "1. Натуральные числа"; u "1.1. Сложение"; u "15. Где?" ].

(** A document without answers section. *)
Definition doc_no_answers : list str :=
  [ u "1. Натуральные числа"; u "1.1. Сложение"; u "15. Где?";
    u "1.1. Сложение" ].

(** A document in which a task without leading number opens a run. *)
Definition doc_opening : list str :=
  [ u "1. Натуральные числа"; u "1.1. Сложение"; u "15. Где?";
    u "1.1. Сложение"; u "б) Столько?"; u "Ответы и советы" ].

Definition a_task (id : string) : Task := task_record 2 (u id) None.
Arguments a_task id%_string.

(** The tasks of [doc] before the reconciler has run. *)
Definition tasks : list Task :=
  [ a_task "14.а"; a_task "14.б"; a_task "14.в"; a_task "15"; a_task "16" ].

End Demo.

(** ** The patterns of the reconciler, read from the specification

    What the three patterns of [answer_parser] capture is decided in
    [constants.py].  The specification shows it in its scenarios 3 and 4
    only; the searches below follow these, so that the values of scenario
    4 can be computed from the text of the answers instead of being listed
    in a table.  A pattern is recognised by its name, as in [Demo]. *)

Module Scenario.

Definition is_digit (c : char) : bool := ((48 <=? c) && (c <=? 57))%N.

(** The longest prefix of decimal digits of [s], and what follows it. *)
Fixpoint span_digits (s : str) : str * str :=
  match s with
  | c :: rest =>
      if is_digit c
      then let '(digits, tail) := span_digits rest in (c :: digits, tail)
      else ([], s)
  | [] => ([], [])
  end.

(** [s] without the prefix [p], when it starts with [p]. *)
Fixpoint strip_prefix (p s : str) : option str :=
  match p, s with
  | [], _ => Some s
  | a :: p, b :: s => if (a =? b)%N then strip_prefix p s else None
  | _ :: _, [] => None
  end.

(** [text.split('\n')] *)
Fixpoint lines (text : str) : list str :=
  match text with
  | [] => [[]]
  | c :: rest =>
      if (c =? 10)%N then [] :: lines rest
      else match lines rest with
           | line :: more => (c :: line) :: more
           | [] => [[c]]
           end
  end.

(** The characters of [s] before its first [';']. *)
Fixpoint until_semicolon (s : str) : str :=
  match s with
  | c :: rest => if (c =? 59)%N then [] else c :: until_semicolon rest
  | [] => []
  end.

(** Modelled from the spec: the pattern [RE_TASK_ID] of [constants.py],
    which is not among the sources.  It parses a book id "into
    (whole-number part, optional sub-part letter/number)"; the ids of the
    specification are [12], [13], [14а], [14б] and the dotted [12.3].
    The whole number is the leading run of digits, the sub-part is what
    follows it (behind the dot, if there is one); an id without sub-part
    leaves both groups unset, and the code reads [group()] then. *)
Definition task_id_match (id : str) : option Match :=
  let '(whole, rest) := span_digits id in
  match whole, rest with
  | [], _ => None
  | _ :: _, [] =>
      Some {| m_group0 := id; m_groups := [None; None];
              m_end := length id |}
  | _ :: _, c :: part =>
      Some {| m_group0 := id;
              m_groups := [Some whole;
                           Some (if (c =? 46)%N then part else rest)];
              m_end := length id |}
  end.

(** Modelled from the spec: the pattern [RE_ANSWER_TEXT] of
    [constants.py] behind a task number, which locates "the answer block
    anchored at the whole-number id".  In scenarios 3 and 4 a block is a
    paragraph of the answers: the number, a dot and the answer, as in
    ["12. 42 см"] and ["14. а) 5; б) 7"].  The search takes the first
    line that starts with the number and a dot; group 1 is the rest of
    that line, and [pos] is the offset of the line in the text. *)
Fixpoint answer_text_match (number : str) (ls : list str) (pos : nat)
  : option Match :=
  match ls with
  | [] => None
  | line :: ls =>
      match strip_prefix (number ++ [46%N]) line with
      | Some answer =>
          Some {| m_group0 := line; m_groups := [Some answer];
                  m_end := pos + length line |}
      | None => answer_text_match number ls (pos + length line + 1)
      end
  end.

(** Modelled from the spec: the pattern [RE_PART_ANSWER] of
    [constants.py] behind a sub-part id, the "second, narrower pattern
    confined to the matched whole-answer span".  In scenario 4 the parts
    of the block ["а) 5; б) 7"] are ["5"] and ["7"]: a part is the
    sub-part id, a closing bracket and the answer, up to the next [';']
    or the end.  The search takes the first place where the id and the
    bracket stand; group 1 is the answer of the part. *)
Fixpoint part_answer_match (part : str) (text : str) (pos : nat)
  : option Match :=
  match strip_prefix (part ++ [41%N]) text with
  | Some rest =>
      let answer := until_semicolon rest in
      Some {| m_group0 := part ++ 41%N :: answer;
              m_groups := [Some answer];
              m_end := pos + length part + 1 + length answer |}
  | None =>
      match text with
      | [] => None
      | _ :: text => part_answer_match part text (S pos)
      end
  end.

(** The part of [pattern] in front of the pattern named [name]. *)
Definition anchor_of (name pattern : str) : option str :=
  let n := (length pattern - length name)%nat in
  if bool_decide (drop n pattern = name) then Some (take n pattern)
  else None.

(** Modelled from the spec: [re.search] on the three patterns that
    [answer_parser] builds from [constants.py] (the id pattern, a number
    followed by the answer pattern, a sub-part id followed by the part
    pattern), each as given above; the other patterns of the program are
    not needed by the reconciler and find nothing here. *)
Definition search (pattern text : str) : result (option Match) :=
  if bool_decide (pattern = Demo.RE_TASK_ID) then Ok (task_id_match text)
  else
    match anchor_of Demo.RE_ANSWER_TEXT pattern with
    | Some number => Ok (answer_text_match number (lines text) 0)
    | None =>
        match anchor_of Demo.RE_PART_ANSWER pattern with
        | Some part => Ok (part_answer_match part text 0)
        | None => Ok None
        end
    end.

End Scenario.

(** Case analysis on a computation of the error monad that is known to
    return: every step it went through returned. *)
Ltac inv_ok :=
  repeat match goal with
  | H : Raise _ = Ok _ |- _ => discriminate H
  | H : Some (Raise _) = Some (Ok _) |- _ => discriminate H
  | H : Ok _ = Ok _ |- _ => injection H as H
  | H : bind ?r _ = Ok _ |- _ =>
      let E := fresh "E" in destruct r eqn:E; cbn [bind] in H
  | H : (if ?b then _ else _) = Ok _ |- _ =>
      let E := fresh "E" in destruct b eqn:E
  | H : match ?x with _ => _ end = Ok _ |- _ =>
      let E := fresh "E" in destruct x eqn:E
  end.

(** Replays in the goal the steps recorded by [inv_ok]. *)
Ltac replay :=
  cbn [bind];
  repeat (match goal with
          | E : ?x = Ok _ |- context [?x] => rewrite E
          | E : ?x = true |- context [?x] => rewrite E
          | E : ?x = false |- context [?x] => rewrite E
          | E : ?x = Some _ |- context [?x] => rewrite E
          | E : ?x = None |- context [?x] => rewrite E
          end; cbn [bind]).

(** ** The program *)

Section Pareser.

(** [constants.py] *)
Variables RE_ANSWER_TEXT RE_CHAPTER RE_PART_ANSWER : str.
Variables RE_SUPREME_CHAPTER RE_TASK RE_TASK_ID : str.
Variable ABSENT : pyval.

(** [re.search(pattern, text)]: a match, [None], or [re.error]. *)
Variable re_search : str -> str -> result (option Match).

(** The integer that a non-empty string denotes for [int], if any. *)
Variable int_literal : str -> option Z.

(** [str.lower] *)
Variable lower : str -> str.

(** [int(s)] for a [str]; the empty string is never a literal. *)
Definition py_int (s : str) : result Z :=
  match s with
  | [] => Raise (InvalidLiteral s)
  | _ =>
      match int_literal s with
      | Some z => Ok z
      | None => Raise (InvalidLiteral s)
      end
  end.

(** [int(g)] for a group that is known not to be [None] *)
Definition int_group (g : option str) : result Z :=
  match g with
  | Some s => py_int s
  | None => Raise TypeError
  end.

Definition get_chapter_data (id : Z) (m : Match) (parent : Z)
  : result Chapter :=
  if parent =? 0 then
    g1 <- group m 1;;
    g2 <- group m 2;;
    Ok {| chapter_id := id;
          chapter_name := fmt g1 ++ fmt g2;
          chapter_parent := parent |}
  else
    g1 <- group m 1;;
    g2 <- group m 2;;
    g3 <- group m 3;;
    Ok {| chapter_id := id;
          chapter_name := fmt g1 ++ fmt g2 ++ fmt g3;
          chapter_parent := parent |}.

Definition get_task_data (m : Match) (paragraph : Z)
    (previous : option str) (exclusive : bool) : result Task :=
  if exclusive then
    g1 <- group m 1;;
    id <- sub_drop_last g1;;
    g2 <- group m 2;;
    Ok (task_record paragraph id g2)
  else
    g1 <- group m 1;;
    match g1 with
    | None =>
        previous <- match previous with
                    | Some p => Ok p
                    | None => Raise AttributeError
                    end;;
        let previous := with_dot previous in
        g4 <- group m 4;;
        s <- concat previous g4;;
        g5 <- group m 5;;
        Ok (task_record paragraph (drop_last s) g5)
    | Some s1 =>
        g2 <- group m 2;;
        s <- concat s1 g2;;
        g3 <- group m 3;;
        Ok (task_record paragraph (drop_last s) g3)
    end.

(** [find_next_task] reads [data[next_index]], [data[next_index + 1]],
    ...: [rest] is [data[next_index:]]. *)
Fixpoint find_next_task_from (rest : list str) (tasks_data : list Task)
    (next_index : nat) (previous_id : option str) (paragraph : Z)
  : result (nat * list Task) :=
  match rest with
  | [] => Raise IndexError_list
  | text :: rest =>
      task_match <- re_search RE_TASK text;;
      match task_match with
      | Some tm =>
          supreme <- re_search RE_SUPREME_CHAPTER text;;
          match supreme with
          | Some _ => Ok (next_index, tasks_data)
          | None =>
              t <- get_task_data tm paragraph previous_id false;;
              find_next_task_from rest (tasks_data ++ [t])
                (S next_index) previous_id paragraph
          end
      | None => Ok (next_index, tasks_data)
      end
  end.

Definition find_next_task (data : list str) (tasks_data : list Task)
    (next_index : nat) (previous_id : option str) (paragraph : Z)
  : result (nat * list Task) :=
  find_next_task_from (drop next_index data) tasks_data next_index
    previous_id paragraph.

Definition find_next_chapter (data : list str) (next_index : nat)
  : result (option Match * nat) :=
  text <- index_list data next_index;;
  chapter_match <- re_search RE_CHAPTER text;;
  Ok (chapter_match, next_index).

Definition get_answer_text (task_id : Z) (text : str) : result pyval :=
  let pattern := str_of_int task_id ++ RE_ANSWER_TEXT in
  answer_match <- re_search pattern text;;
  match answer_match with
  | Some m =>
      g1 <- group m 1;;
      match g1 with
      | Some s => Ok (VStr (strip s))
      | None => Raise AttributeError
      end
  | None => Ok ABSENT
  end.

Definition get_answer_part (task_part_id : option str) (text : pyval)
  : result pyval :=
  let pattern := fmt task_part_id ++ RE_PART_ANSWER in
  match text with
  | VStr text =>
      answer_part_match <- re_search pattern text;;
      match answer_part_match with
      | Some m =>
          g1 <- group m 1;;
          match g1 with
          | Some s => Ok (VStr (strip (slice_to (m_end m) s)))
          | None => Raise TypeError
          end
      | None => Ok ABSENT
      end
  | _ => Raise TypeError
  end.

(** [tasks_data[i]['answer'] = v] *)
Definition assign (i : nat) (v : pyval) (tasks_data : list Task)
  : list Task :=
  alter (set_answer v) i tasks_data.

(** One turn of the [while] loop of [answer_parser], entered with
    [task = tasks_data[index]]; the result is the new [index],
    [current_task_num] and [tasks_data].  Where the code evaluates
    [int(...)] of the same group twice, the value is bound once. *)
Definition answer_step (answers_text : str) (index : nat)
    (current_task_num : Z) (tasks_data : list Task) (task : Task)
  : result (nat * Z * list Task) :=
  task_id_match <- re_search RE_TASK_ID (id_tasks_book task);;
  m <- the_match task_id_match;;
  g1 <- group m 1;;
  if truthy g1 then
    n <- int_group g1;;
    if current_task_num <=? n then
      let current_task_num := n in
      answer <- get_answer_text current_task_num answers_text;;
      if bool_decide (answer <> ABSENT) then
        g2 <- group m 2;;
        answer_part <- get_answer_part g2 answer;;
        Ok (S index, current_task_num, assign index answer_part tasks_data)
      else
        Ok (S index, current_task_num, assign index answer tasks_data)
    else
      Ok (S index, current_task_num, tasks_data)
  else
    g0 <- group m 0;;
    current_task_num <- int_group g0;;
    next_task <- index_list tasks_data (index + 1);;
    next_task_id_match <- re_search RE_TASK_ID (id_tasks_book next_task);;
    nm <- the_match next_task_id_match;;
    ng1 <- group nm 1;;
    match ng1 with
    | None =>
        answer <- get_answer_text current_task_num answers_text;;
        let tasks_data := assign index answer tasks_data in
        ng0 <- group nm 0;;
        current_task_num <- int_group ng0;;
        next_answer <- get_answer_text current_task_num answers_text;;
        let tasks_data := assign (index + 1) next_answer tasks_data in
        Ok (S (index + 1), current_task_num, tasks_data)
    | Some _ =>
        k <- int_group ng1;;
        if current_task_num <? k then
          answer <- get_answer_text current_task_num answers_text;;
          let tasks_data := assign index answer tasks_data in
          let current_task_num := k in
          next_answer <- get_answer_text current_task_num answers_text;;
          if bool_decide (next_answer <> ABSENT) then
            ng2 <- group nm 2;;
            next_answer_part <- get_answer_part ng2 next_answer;;
            Ok (S (index + 1), current_task_num,
                assign (index + 1) next_answer_part tasks_data)
          else
            Ok (S (index + 1), current_task_num,
                assign (index + 1) next_answer tasks_data)
        else if k =? current_task_num then
          let tasks_data := assign index ABSENT tasks_data in
          next_answer <- get_answer_text current_task_num answers_text;;
          if bool_decide (next_answer <> ABSENT) then
            ng2 <- group nm 2;;
            next_answer_part <- get_answer_part ng2 next_answer;;
            Ok (S index, current_task_num,
                assign (index + 1) next_answer_part tasks_data)
          else
            Ok (S index, current_task_num, tasks_data)
        else
          Ok (S index, current_task_num, tasks_data)
    end.

(** The [while index < len(tasks_data)] loop. *)
Fixpoint answer_loop (fuel : nat) (answers_text : str) (index : nat)
    (current_task_num : Z) (tasks_data : list Task)
  : option (result (list Task)) :=
  match fuel with
  | O => None
  | S fuel =>
      match tasks_data !! index with
      | None => Some (Ok tasks_data)
      | Some task =>
          lift (answer_step answers_text index current_task_num
                  tasks_data task)
            (fun '(index, current_task_num, tasks_data) =>
               answer_loop fuel answers_text index current_task_num
                 tasks_data)
      end
  end.

Definition answer_parser (data : list str) (tasks_data : list Task)
  : option (result (list Task)) :=
  answer_loop (S (length tasks_data)) (join_lines data) 0 0 tasks_data.

(** The local variables of [parser] that live across loop turns. *)
Record state := {
  index : nat;
  current_chapter : Z;
  supreme_chapter_id : Z;
  current_id : Z;
  chapters_data : list Chapter;
  tasks_data : list Task
}.

(** How a turn of the main loop ends: [continue] (or falling through
    to the loop test) with a new state, or [break] out of the answer
    section with the collected [answers_text]. *)
Inductive turn :=
| Continue (st : state)
| Break (answers_text : list str).

(** The inner loop of the answer section over [data[index:]]. *)
Fixpoint collect_answers (rest : list str) (answers_text : list str)
  : list str :=
  match rest with
  | [] => answers_text
  | text :: rest =>
      if bool_decide (strip (lower text) = u "оглавление")
      then answers_text
      else collect_answers rest (answers_text ++ [text])
  end.

Definition previous_id_of (task_match : Match) (tasks_data : list Task)
  : result (option str) :=
  g4 <- group task_match 4;;
  if truthy g4 then
    t <- last_item tasks_data;;
    Ok (Some (id_tasks_book t))
  else
    group task_match 1.

(** One turn of the main loop of [parser], entered with
    [text = data[index]].  [int(supreme_chapter_match.group(1)[:-1])],
    which the code evaluates again to set [current_chapter], is bound
    once. *)
Definition parser_step (data : list str) (st : state) (text : str)
  : result turn :=
  supreme_chapter_match <- re_search RE_SUPREME_CHAPTER text;;
  match supreme_chapter_match with
  | Some sm =>
      g1 <- group sm 1;;
      s <- sub_drop_last g1;;
      n <- py_int s;;
      let its_next_chapter := n =? current_chapter st + 1 in
      task_match <- re_search RE_TASK text;;
      if its_next_chapter && bool_decide (task_match = None) then
        found <- find_next_chapter data (index st + 1);;
        let '(chapter_match, chapter_index) := found in
        match chapter_match with
        | Some cm =>
            c1 <- get_chapter_data (current_id st) sm 0;;
            let chapters := chapters_data st ++ [c1] in
            let supreme := current_id st in
            let current := current_id st + 1 in
            c2 <- get_chapter_data current cm supreme;;
            let chapters := chapters ++ [c2] in
            let current := current + 1 in
            Ok (Continue
                  {| index := chapter_index + 1;
                     current_chapter := n;
                     supreme_chapter_id := supreme;
                     current_id := current;
                     chapters_data := chapters;
                     tasks_data := tasks_data st |})
        | None =>
            c1 <- get_chapter_data (current_id st) sm 0;;
            Ok (Continue
                  {| index := index st + 1;
                     current_chapter := n;
                     supreme_chapter_id := current_id st;
                     current_id := current_id st + 1;
                     chapters_data := chapters_data st ++ [c1];
                     tasks_data := tasks_data st |})
        end
      else
        chapter_match <- re_search RE_CHAPTER text;;
        match chapter_match with
        | Some cm =>
            c <- get_chapter_data (current_id st) cm
                   (supreme_chapter_id st);;
            Ok (Continue
                  {| index := index st + 1;
                     current_chapter := current_chapter st;
                     supreme_chapter_id := supreme_chapter_id st;
                     current_id := current_id st + 1;
                     chapters_data := chapters_data st ++ [c];
                     tasks_data := tasks_data st |})
        | None =>
            last_chapter <- last_item (chapters_data st);;
            let paragraph := chapter_id last_chapter in
            match task_match with
            | Some tm =>
                previous_id <- previous_id_of tm (tasks_data st);;
                t <- get_task_data tm paragraph previous_id false;;
                tg1 <- group tm 1;;
                found <- find_next_task data (tasks_data st ++ [t])
                           (index st + 1) tg1 paragraph;;
                let '(next_index, tasks) := found in
                Ok (Continue
                      {| index := next_index;
                         current_chapter := current_chapter st;
                         supreme_chapter_id := supreme_chapter_id st;
                         current_id := current_id st;
                         chapters_data := chapters_data st;
                         tasks_data := tasks |})
            | None =>
                t <- get_task_data sm paragraph None true;;
                Ok (Continue
                      {| index := index st + 1;
                         current_chapter := current_chapter st;
                         supreme_chapter_id := supreme_chapter_id st;
                         current_id := current_id st;
                         chapters_data := chapters_data st;
                         tasks_data := tasks_data st ++ [t] |})
            end
        end
  | None =>
      chapter_match <- re_search RE_CHAPTER text;;
      match chapter_match with
      | Some cm =>
          c <- get_chapter_data (current_id st) cm (supreme_chapter_id st);;
          Ok (Continue
                {| index := index st + 1;
                   current_chapter := current_chapter st;
                   supreme_chapter_id := supreme_chapter_id st;
                   current_id := current_id st + 1;
                   chapters_data := chapters_data st ++ [c];
                   tasks_data := tasks_data st |})
      | None =>
          task_match <- re_search RE_TASK text;;
          match task_match with
          | Some tm =>
              previous_id <- previous_id_of tm (tasks_data st);;
              last_chapter <- last_item (chapters_data st);;
              let paragraph := chapter_id last_chapter in
              t <- get_task_data tm paragraph previous_id false;;
              found <- find_next_task data (tasks_data st ++ [t])
                         (index st + 1) previous_id paragraph;;
              let '(next_index, tasks) := found in
              Ok (Continue
                    {| index := next_index;
                       current_chapter := current_chapter st;
                       supreme_chapter_id := supreme_chapter_id st;
                       current_id := current_id st;
                       chapters_data := chapters_data st;
                       tasks_data := tasks |})
          | None =>
              if bool_decide (text = u "Ответы и советы") then
                Ok (Break (collect_answers (drop (index st + 1) data) []))
              else
                Raise (ValueError
                         (u "index:" ++ str_of_int (Z.of_nat (index st))
                          ++ u "    " ++ text))
          end
      end
  end.

(** The [while index < len(data)] loop; its result is the three lists
    [tasks_data], [chapters_data] and [answers_text]. *)
Fixpoint parser_loop (fuel : nat) (data : list str) (st : state)
  : option (result (list Task * list Chapter * list str)) :=
  match fuel with
  | O => None
  | S fuel =>
      match data !! index st with
      | None => Some (Ok (tasks_data st, chapters_data st, []))
      | Some text =>
          lift (parser_step data st text)
            (fun t =>
               match t with
               | Continue st => parser_loop fuel data st
               | Break answers_text =>
                   Some (Ok (tasks_data st, chapters_data st,
                             answers_text))
               end)
      end
  end.

Definition initial : state :=
  {| index := 0; current_chapter := 0; supreme_chapter_id := 0;
     current_id := 1; chapters_data := []; tasks_data := [] |}.

(** [parser(doc)], where [doc] is the list of the [item.text] of the
    document's inner content. *)
Definition parser (doc : list str)
  : option (result (list Task * list Chapter * list Author)) :=
  let data := map strip doc in
  match parser_loop (S (length data)) data initial with
  | None => None
  | Some (Raise e) => Some (Raise e)
  | Some (Ok (tasks, chapters, answers_text)) =>
      if bool_decide (answers_text <> []) then
        match answer_parser answers_text tasks with
        | None => None
        | Some (Raise e) => Some (Raise e)
        | Some (Ok tasks) => Some (Ok (tasks, chapters, authors_data))
        end
      else Some (Ok (tasks, chapters, authors_data))
  end.

(** ** Vocabulary of the properties *)

(** Two task records that differ at most in ['answer']. *)
Definition same_task (t t' : Task) : Prop :=
  set_answer VNone t = set_answer VNone t'.

(** Two task lists that differ at most in the answers. *)
Definition same_tasks (l l' : list Task) : Prop :=
  set_answer VNone <$> l = set_answer VNone <$> l'.

(** What the reconciler assigns to a task with a sub-part whose whole
    number is [n] and whose id matched as [m] (lines 185-191 and 209-216):
    the part of the answer block anchored at [n], or the sentinel when
    there is no such block. *)
Definition sub_part_extraction (n : Z) (m : Match) (answers_text : str)
  : result pyval :=
  answer <- get_answer_text n answers_text;;
  if bool_decide (answer <> ABSENT) then
    g2 <- group m 2;;
    get_answer_part g2 answer
  else Ok answer.

(** [l1] and [l2] come out of the same assignments made to [l] and to
    [k]: at every position they agree, or both are as they were. *)
Definition agree (l k l1 k1 : list Task) : Prop :=
  forall j, l1 !! j = k1 !! j \/ (l1 !! j = l !! j /\ k1 !! j = k !! j).

(** The whole number that the reconciler reads off a book id: group 1
    of the id pattern when it is non-empty, else the whole match. *)
Definition whole_number (id : str) : option Z :=
  match re_search RE_TASK_ID id with
  | Ok (Some m) =>
      match group m 1 with
      | Ok g1 =>
          match (if truthy g1 then int_group g1 else py_int (m_group0 m)) with
          | Ok n => Some n
          | Raise _ => None
          end
      | Raise _ => None
      end
  | _ => None
  end.

(** The whole numbers of [ids] never fall below the high-water mark
    [current_task_num], which starts at [mark]. *)
Fixpoint above_mark (mark : Z) (ids : list str) : bool :=
  match ids with
  | [] => true
  | id :: ids =>
      match whole_number id with
      | Some n => (mark <=? n) && above_mark n ids
      | None => false
      end
  end.

(** The values that the reconciler takes from the answers: the
    sentinel, the text of a block, or a part of a block. *)
Inductive extracted (answers_text : str) : pyval -> Prop :=
| extracted_absent : extracted answers_text ABSENT
| extracted_text n v :
    get_answer_text n answers_text = Ok v -> extracted answers_text v
| extracted_part n a p v :
    get_answer_text n answers_text = Ok a ->
    get_answer_part p a = Ok v -> extracted answers_text v.

(** The task carries an ['answer'] taken from the answers. *)
Definition answered (answers_text : str) (t : Task) : Prop :=
  exists v, answer t = Some v /\ extracted answers_text v.

(** [l[i]] is the task [t] with the answer [v]: ['answer'] holds [v] and
    every other key is as in [t]. *)
Definition carries (l : list Task) (i : nat) (t : Task) (v : pyval)
  : Prop :=
  exists t', l !! i = Some t' /\ answer t' = Some v /\ same_task t t'.

Definition answered_below (answers_text : str) (i : nat) (l : list Task)
  : Prop :=
  forall j t, (j < i)%nat -> l !! j = Some t -> answered answers_text t.

(** The numeric id that [get_task_data] assembles, before the last
    character is stripped, in its three cases. *)
Definition assembled_id (m : Match) (previous : option str)
    (exclusive : bool) : result str :=
  g1 <- group m 1;;
  if exclusive then
    match g1 with
    | Some s1 => Ok s1
    | None => Raise TypeError
    end
  else
    match g1 with
    | None =>
        match previous with
        | Some previous => g4 <- group m 4;; concat (with_dot previous) g4
        | None => Raise AttributeError
        end
    | Some s1 => g2 <- group m 2;; concat s1 g2
    end.

(** The first [k + 1] paragraphs of [rest] are task paragraphs without a
    leading number (group 1 is None). *)
Definition implicit_run (rest : list str) (k : nat) : Prop :=
  forall j, (j <= k)%nat ->
    exists text m, rest !! j = Some text
                   /\ re_search RE_TASK text = Ok (Some m)
                   /\ group m 1 = Ok None.

(** The paragraph matches one of the two chapter patterns. *)
Definition heading (text : str) : Prop :=
  (exists m, re_search RE_SUPREME_CHAPTER text = Ok (Some m))
  \/ (exists m, re_search RE_CHAPTER text = Ok (Some m)).

(** Chapter ids count from 1 in the order of the list, and a parent is
    0 or the id of a record further to the front. *)
Definition chapters_wf (chapters : list Chapter) : Prop :=
  forall i c, chapters !! i = Some c ->
    chapter_id c = Z.of_nat (S i)
    /\ (chapter_parent c = 0
        \/ exists j p, (j < i)%nat /\ chapters !! j = Some p
                       /\ chapter_id p = chapter_parent c).

(** Every task's chapter is one of the chapter records. *)
Definition tasks_in_chapters (tasks : list Task) (chapters : list Chapter)
  : Prop :=
  forall t, t ∈ tasks -> exists c, c ∈ chapters /\ chapter_id c = paragraph t.

Definition state_inv (st : state) : Prop :=
  chapters_wf (chapters_data st)
  /\ current_id st = Z.of_nat (S (length (chapters_data st)))
  /\ (supreme_chapter_id st = 0
      \/ exists j p, chapters_data st !! j = Some p
                     /\ chapter_id p = supreme_chapter_id st)
  /\ tasks_in_chapters (tasks_data st) (chapters_data st).

(** What a turn of the main loop that goes on has done: appended chapter
    records, or appended task records of the last chapter. *)
Inductive turn_kind (text : str) (st st' : state) : Prop :=
| turn_chapters cs :
    cs <> [] ->
    chapters_data st' = chapters_data st ++ cs ->
    tasks_data st' = tasks_data st ->
    heading text ->
    current_id st' = current_id st + Z.of_nat (length cs) ->
    (forall k c, cs !! k = Some c ->
       chapter_id c = current_id st + Z.of_nat k
       /\ (chapter_parent c = 0
           \/ chapter_parent c = supreme_chapter_id st
           \/ ((0 < k)%nat /\ chapter_parent c = current_id st))) ->
    (supreme_chapter_id st' = supreme_chapter_id st
     \/ supreme_chapter_id st' = current_id st) ->
    turn_kind text st st'
| turn_tasks lc new :
    chapters_data st' = chapters_data st ->
    supreme_chapter_id st' = supreme_chapter_id st ->
    current_id st' = current_id st ->
    last (chapters_data st) = Some lc ->
    tasks_data st' = tasks_data st ++ new ->
    new <> [] ->
    Forall (fun t => paragraph t = chapter_id lc) new ->
    turn_kind text st st'.

(** The turn of the main loop in state [st] treats [text] as a task: no
    chapter is emitted for it, and it matches the task pattern (with the
    groups that the code reads for the reference) or is a supreme-chapter
    line taken as an exclusive task. *)
Definition treated_as_task (st : state) (text : str) : Prop :=
  (re_search RE_SUPREME_CHAPTER text = Ok None
   /\ re_search RE_CHAPTER text = Ok None
   /\ exists tm, re_search RE_TASK text = Ok (Some tm)
                 /\ (4 <= length (m_groups tm))%nat)
  \/ (exists sm g1 s n tmo,
        re_search RE_SUPREME_CHAPTER text = Ok (Some sm)
        /\ group sm 1 = Ok g1 /\ sub_drop_last g1 = Ok s /\ py_int s = Ok n
        /\ re_search RE_TASK text = Ok tmo
        /\ (n =? current_chapter st + 1) && bool_decide (tmo = None) = false
        /\ re_search RE_CHAPTER text = Ok None).

(** The paragraph has none of the structures that the main loop knows. *)
Definition unrecognised (text : str) : Prop :=
  re_search RE_SUPREME_CHAPTER text = Ok None
  /\ re_search RE_CHAPTER text = Ok None
  /\ re_search RE_TASK text = Ok None
  /\ text <> u "Ответы и советы".

(** The message of the classification error. *)
Definition unrecognised_message (index : nat) (text : str) : str :=
  u "index:" ++ str_of_int (Z.of_nat index) ++ u "    " ++ text.

(** The paragraph closes the answers section. *)
Definition is_contents (text : str) : Prop :=
  strip (lower text) = u "оглавление".

(** The states that the main loop goes through from [st] on. *)
Inductive reaches (data : list str) (st : state) : state -> Prop :=
| reaches_here : reaches data st st
| reaches_turn text st1 st2 :
    reaches data st st1 ->
    data !! index st1 = Some text ->
    parser_step data st1 text = Ok (Continue st2) ->
    reaches data st st2.

(** The id of an implicit continuation with suffix [g4] under the
    reference [previous]. *)
Definition continuation_id (previous g4 : str) : str :=
  drop_last (with_dot previous ++ g4).

(** The [previous_id] that a task turn of the main loop hands to
    [find_next_task] for the continuations of the task matched by [tm]:
    group 1 of that task on a line that is also a supreme-chapter line,
    else the reference that the task itself was built with. *)
Definition run_reference (st : state) (text : str) (tm : Match)
  : result (option str) :=
  sm <- re_search RE_SUPREME_CHAPTER text;;
  match sm with
  | Some _ => group tm 1
  | None => previous_id_of tm (tasks_data st)
  end.

(** No whitespace character at either end of [s]. *)
Definition stripped (s : str) : Prop :=
  (forall c, head s = Some c -> is_space c = false)
  /\ (forall c, last s = Some c -> is_space c = false).

(** What a lookup in the answers returns: the sentinel, or a string
    without whitespace around it. *)
Definition clean_answer (v : pyval) : Prop :=
  v = ABSENT \/ exists s, v = VStr s /\ stripped s.

(** [i] is the id of a chapter record without parent. *)
Definition top_level (chapters : list Chapter) (i : Z) : Prop :=
  exists p, p ∈ chapters /\ chapter_id p = i /\ chapter_parent p = 0.

(** The chapters form a tree of depth two: the parent of a record, if it
    has one, is a record without parent. *)
Definition two_level (chapters : list Chapter) : Prop :=
  forall c, c ∈ chapters ->
    chapter_parent c = 0 \/ top_level chapters (chapter_parent c).

Definition two_level_state (st : state) : Prop :=
  two_level (chapters_data st)
  /\ (supreme_chapter_id st = 0
      \/ top_level (chapters_data st) (supreme_chapter_id st)).

(** The chapter ids of the tasks lie between 1 and [n] and never
    decrease along the list. *)
Definition paragraphs_ordered (tasks : list Task) (n : nat) : Prop :=
  (forall t, t ∈ tasks -> 1 <= paragraph t <= Z.of_nat n)
  /\ (forall i j ti tj, (i <= j)%nat ->
        tasks !! i = Some ti -> tasks !! j = Some tj ->
        paragraph ti <= paragraph tj).

(** No task carries an ['answer']. *)
Definition unanswered (tasks : list Task) : Prop :=
  Forall (fun t => answer t = None) tasks.

(** ** The answer reconciler: basic facts *)

Lemma set_answer_twice v w t : set_answer v (set_answer w t) = set_answer v t.
Proof. reflexivity. Qed.

Lemma same_tasks_refl l : same_tasks l l.
Proof. reflexivity. Qed.

Lemma same_tasks_trans l1 l2 l3 :
  same_tasks l1 l2 -> same_tasks l2 l3 -> same_tasks l1 l3.
Proof. unfold same_tasks. congruence. Qed.

Lemma same_tasks_length l l' : same_tasks l l' -> length l = length l'.
Proof.
  unfold same_tasks. intros H.
  rewrite <- (length_fmap (set_answer VNone) l), H. apply length_fmap.
Qed.

Lemma same_tasks_lookup l l' i t :
  same_tasks l l' -> l !! i = Some t ->
  exists t', l' !! i = Some t' /\ same_task t t'.
Proof.
  unfold same_tasks, same_task. intros H Hi.
  assert (Hl : (set_answer VNone <$> l') !! i = Some (set_answer VNone t))
    by (rewrite <- H, list_lookup_fmap, Hi; reflexivity).
  rewrite list_lookup_fmap in Hl.
  destruct (l' !! i) as [t'|]; [|discriminate].
  exists t'. split; [reflexivity|]. simpl in Hl. congruence.
Qed.

Lemma same_task_id t t' : same_task t t' -> id_tasks_book t = id_tasks_book t'.
Proof. unfold same_task. intros H. apply (f_equal id_tasks_book) in H. exact H. Qed.

Lemma same_task_paragraph t t' : same_task t t' -> paragraph t = paragraph t'.
Proof. unfold same_task. intros H. apply (f_equal paragraph) in H. exact H. Qed.

Lemma assign_same_tasks i v l : same_tasks l (assign i v l).
Proof.
  unfold same_tasks, assign. apply list_eq. intros j.
  rewrite !list_lookup_fmap.
  destruct (decide (i = j)) as [->|Hne].
  - rewrite list_lookup_alter_eq. destruct (l !! j); reflexivity.
  - rewrite list_lookup_alter_ne by exact Hne. reflexivity.
Qed.

Lemma assign_length i v l : length (assign i v l) = length l.
Proof. apply length_alter. Qed.

Lemma answer_step_facts text i c l t i' c' l' :
  answer_step text i c l t = Ok (i', c', l') ->
  (i < i' <= i + 2)%nat /\ same_tasks l l'.
Proof.
  unfold answer_step. intros H. inv_ok; simplify_eq;
    (split; [lia|]);
    repeat (eapply same_tasks_trans; [|apply assign_same_tasks]);
    apply same_tasks_refl.
Qed.

Lemma answer_loop_total text fuel : forall i c l,
  (length l - i < fuel)%nat -> exists r, answer_loop fuel text i c l = Some r.
Proof.
  induction fuel as [|fuel IH]; intros i c l Hf; [lia|].
  simpl. destruct (l !! i) as [t|] eqn:Et; [|eauto].
  destruct (answer_step text i c l t) as [[[i' c'] l']|e] eqn:Es; simpl;
    [|eauto].
  apply answer_step_facts in Es as [Hi Hs]. apply IH.
  rewrite <- (same_tasks_length _ _ Hs). apply lookup_lt_Some in Et. lia.
Qed.

(** The fuel that [answer_parser] hands to its loop suffices. *)
Lemma answer_parser_total data l : exists r, answer_parser data l = Some r.
Proof. apply answer_loop_total. lia. Qed.

Lemma answer_loop_same_tasks text fuel : forall i c l l',
  answer_loop fuel text i c l = Some (Ok l') -> same_tasks l l'.
Proof.
  induction fuel as [|fuel IH]; intros i c l l' H; [discriminate|].
  simpl in H. destruct (l !! i) as [t|] eqn:Et.
  - destruct (answer_step text i c l t) as [[[i' c'] l1]|e] eqn:Es;
      simpl in H; [|discriminate].
    apply answer_step_facts in Es as [_ Hs].
    eapply same_tasks_trans; [exact Hs|]. eapply IH. exact H.
  - injection H as <-. apply same_tasks_refl.
Qed.

Lemma assign_assign i v w l : assign i v (assign i w l) = assign i v l.
Proof.
  unfold assign. rewrite list_alter_alter_eq.
  apply list_alter_ext; [|reflexivity]. intros x _. reflexivity.
Qed.

Lemma assign_lookup_ne i j v l : i <> j -> assign i v l !! j = l !! j.
Proof. intros H. unfold assign. apply list_lookup_alter_ne. exact H. Qed.

Lemma assign_lookup_eq i v l :
  assign i v l !! i = set_answer v <$> l !! i.
Proof. unfold assign. apply list_lookup_alter_eq. Qed.

Lemma py_int_nonempty s n : py_int s = Ok n -> truthy (Some s) = true.
Proof. destruct s; [discriminate|reflexivity]. Qed.

(** ** The look-ahead of the reconciler *)

(** C9, as the code has it: in the branch of a task without sub-part the
    loop reads [tasks_data[index + 1]] right after [int(...)] of the
    whole id and before any test on the length; so whenever the cursor
    stands on the last task of the list and that task has no sub-part,
    the run ends in the IndexError of a list index out of range, and the
    task is not assigned an answer. *)
Theorem answer_loop_last_task_without_part
    text fuel i c l t m g1 n :
  l !! i = Some t ->
  length l = S i ->
  re_search RE_TASK_ID (id_tasks_book t) = Ok (Some m) ->
  group m 1 = Ok g1 ->
  truthy g1 = false ->
  py_int (m_group0 m) = Ok n ->
  answer_loop (S fuel) text i c l = Some (Raise IndexError_list).
Proof.
  intros Ht Hlen Hm Hg1 Hf Hn.
  simpl. rewrite Ht. unfold answer_step.
  rewrite Hm. cbn [bind the_match]. rewrite Hg1. cbn [bind]. rewrite Hf.
  cbn [group int_group bind]. rewrite Hn. cbn [bind].
  unfold index_list.
  rewrite (lookup_ge_None_2 l (i + 1)) by lia.
  reflexivity.
Qed.

(** ** Two tasks reconciled together *)

Lemma answer_step_behind text i c l t i1 c1 l1 :
  answer_step text i c l t = Ok (i1, c1, l1) ->
  forall j, (j < i)%nat -> l1 !! j = l !! j.
Proof.
  unfold answer_step. intros H j Hj.
  inv_ok; simplify_eq; rewrite ?assign_lookup_ne by lia; reflexivity.
Qed.

Lemma answer_loop_behind text fuel : forall i c l l',
  answer_loop fuel text i c l = Some (Ok l') ->
  forall j, (j < i)%nat -> l' !! j = l !! j.
Proof.
  induction fuel as [|fuel IH]; intros i c l l' H j Hj; [discriminate|].
  cbn [answer_loop] in H. destruct (l !! i) as [t|] eqn:Et.
  - destruct (answer_step text i c l t) as [[[i1 c1] l1]|e] eqn:Es;
      cbn [lift] in H; [|discriminate].
    pose proof (answer_step_facts _ _ _ _ _ _ _ _ Es) as [Hi _].
    rewrite (IH _ _ _ _ H j) by lia.
    eapply answer_step_behind; eassumption.
  - injection H as <-. reflexivity.
Qed.

(** A turn that returns is followed by the rest of the loop. *)
Lemma answer_loop_turn text fuel i c l t i1 c1 l1 :
  l !! i = Some t ->
  answer_step text i c l t = Ok (i1, c1, l1) ->
  answer_loop (S fuel) text i c l = answer_loop fuel text i1 c1 l1.
Proof. intros Ht Hs. cbn [answer_loop]. rewrite Ht, Hs. reflexivity. Qed.

(** With the cursor behind the last task the loop returns the list. *)
Lemma answer_loop_end text fuel i c l :
  (length l <= i)%nat -> answer_loop (S fuel) text i c l = Some (Ok l).
Proof.
  intros H. cbn [answer_loop].
  rewrite (lookup_ge_None_2 l i) by lia. reflexivity.
Qed.

Lemma same_task_set_answer v t : same_task t (set_answer v t).
Proof. reflexivity. Qed.

Lemma carries_pair i v w l t t' :
  l !! i = Some t ->
  l !! (i + 1)%nat = Some t' ->
  carries (assign (i + 1) w (assign i v l)) i t v
  /\ carries (assign (i + 1) w (assign i v l)) (i + 1) t' w.
Proof.
  intros Ht Ht'. split.
  - exists (set_answer v t). split; [|split; reflexivity].
    rewrite assign_lookup_ne by lia. rewrite assign_lookup_eq, Ht.
    reflexivity.
  - exists (set_answer w t'). split; [|split; reflexivity].
    rewrite assign_lookup_eq. rewrite assign_lookup_ne by lia.
    rewrite Ht'. reflexivity.
Qed.

(** What follows for the run when [turns] turns (one or two) take the
    loop from the cursor [i] to the cursor [i + 2] with the answers [v]
    and [w] assigned to the tasks at [i] and [i + 1]. *)
Lemma pair_outcome text i c mark l t t' v w turns :
  l !! i = Some t ->
  l !! (i + 1)%nat = Some t' ->
  (turns <= 2)%nat ->
  (forall fuel,
     answer_loop (turns + fuel) text i c l
     = answer_loop fuel text (i + 2) mark
         (assign (i + 1) w (assign i v l))) ->
  (forall fuel, (length l - i < fuel)%nat ->
     exists r, answer_loop fuel text i c l = Some r
       /\ forall l', r = Ok l' ->
            carries l' i t v /\ carries l' (i + 1) t' w)
  /\ (length l = (i + 2)%nat ->
      forall fuel,
        answer_loop (turns + S fuel) text i c l
        = Some (Ok (assign (i + 1) w (assign i v l)))).
Proof.
  intros Ht Ht' Hk Hloop. split.
  - intros fuel Hfuel.
    destruct (answer_loop_total text fuel i c l Hfuel) as [r Hr].
    exists r. split; [exact Hr|]. intros l' ->.
    pose proof (lookup_lt_Some _ _ _ Ht') as Hlt.
    replace fuel with (turns + (fuel - turns))%nat in Hr by lia.
    rewrite Hloop in Hr.
    destruct (carries_pair i v w l t t' Ht Ht') as [Hc Hc'].
    unfold carries in *.
    rewrite (answer_loop_behind _ _ _ _ _ _ Hr i) by lia.
    rewrite (answer_loop_behind _ _ _ _ _ _ Hr (i + 1)%nat) by lia.
    split; assumption.
  - intros Hlen fuel. rewrite Hloop. apply answer_loop_end.
    rewrite !assign_length. lia.
Qed.

(** The turn on the task with the sub-part, entered with the mark at its
    own whole number [n]: it is given its sub-part extraction. *)
Lemma answer_step_sub_part text i t' nm s n v :
  re_search RE_TASK_ID (id_tasks_book t') = Ok (Some nm) ->
  group nm 1 = Ok (Some s) ->
  py_int s = Ok n ->
  sub_part_extraction n nm text = Ok v ->
  forall l1 t1,
    id_tasks_book t1 = id_tasks_book t' ->
    answer_step text i n l1 t1 = Ok (S i, n, assign i v l1).
Proof.
  intros Hnm Hs Hk Hv l1 t1 Hid. unfold answer_step. rewrite Hid, Hnm.
  cbn [bind the_match]. rewrite Hs. cbn [bind].
  rewrite (py_int_nonempty _ _ Hk). cbn [int_group]. rewrite Hk.
  cbn [bind]. rewrite Z.leb_refl.
  unfold sub_part_extraction in Hv.
  destruct (get_answer_text n text) as [a|e]; [|discriminate Hv].
  cbn [bind] in *.
  destruct (bool_decide (a <> ABSENT)).
  - destruct (group nm 2) as [g2|e]; [|discriminate Hv]. cbn [bind] in *.
    rewrite Hv. reflexivity.
  - injection Hv as <-. reflexivity.
Qed.

(** C5: when the task under the cursor has no sub-part and the next id
    carries the same whole number [n] in its whole-number group, the
    turn on the current task and the turn on the next one set the answer
    of the current task to ABSENT and the answer of the next task to its
    sub-part extraction from the block anchored at [n]; the cursor is
    then behind the two, the mark is [n], and no other task has changed.
    Whenever the run returns, the two tasks carry these answers in the
    list it returns, and when they are the last two tasks the run returns
    with nothing else assigned. *)
Theorem answer_loop_same_whole_number
    text i c l t t' m g1 n nm s v :
  l !! i = Some t ->
  l !! (i + 1)%nat = Some t' ->
  re_search RE_TASK_ID (id_tasks_book t) = Ok (Some m) ->
  group m 1 = Ok g1 ->
  truthy g1 = false ->
  py_int (m_group0 m) = Ok n ->
  re_search RE_TASK_ID (id_tasks_book t') = Ok (Some nm) ->
  group nm 1 = Ok (Some s) ->
  py_int s = Ok n ->
  sub_part_extraction n nm text = Ok v ->
  let l2 := assign (i + 1) v (assign i ABSENT l) in
  (exists l1 t1,
     answer_step text i c l t = Ok (S i, n, l1)
     /\ carries l1 i t ABSENT
     /\ l1 !! S i = Some t1
     /\ answer_step text (S i) n l1 t1 = Ok (S (S i), n, l2))
  /\ carries l2 i t ABSENT
  /\ carries l2 (i + 1) t' v
  /\ (forall j, j <> i -> j <> (i + 1)%nat -> l2 !! j = l !! j)
  /\ (forall fuel,
        answer_loop (S (S fuel)) text i c l
        = answer_loop fuel text (i + 2) n l2)
  /\ (forall fuel, (length l - i < fuel)%nat ->
        exists r, answer_loop fuel text i c l = Some r
          /\ forall l', r = Ok l' ->
               carries l' i t ABSENT /\ carries l' (i + 1) t' v)
  /\ (length l = (i + 2)%nat ->
      forall fuel, answer_loop (S (S (S fuel))) text i c l = Some (Ok l2)).
Proof.
  intros Ht Ht' Hm Hg1 Hf Hn Hnm Hs Hk Hv l2.
  pose proof (answer_step_sub_part text (S i) t' nm s n v Hnm Hs Hk Hv)
    as Hstep2.
  assert (Hturns : exists l1 t1,
     answer_step text i c l t = Ok (S i, n, l1)
     /\ carries l1 i t ABSENT
     /\ l1 !! S i = Some t1
     /\ answer_step text (S i) n l1 t1 = Ok (S (S i), n, l2)).
  { unfold answer_step at 1.
    rewrite Hm. cbn [bind the_match]. rewrite Hg1. cbn [bind]. rewrite Hf.
    change (group m 0) with (Ok (Some (m_group0 m))).
    cbn [int_group bind]. rewrite Hn. cbn [bind].
    unfold index_list. rewrite Ht'. cbn [bind]. rewrite Hnm.
    cbn [bind the_match]. rewrite Hs. cbn [bind int_group]. rewrite Hk.
    cbn [bind]. rewrite Z.ltb_irrefl, Z.eqb_refl.
    pose proof Hv as Hv'. unfold sub_part_extraction in Hv'.
    destruct (get_answer_text n text) as [a|e]; [|discriminate Hv'].
    cbn [bind] in *.
    destruct (bool_decide (a <> ABSENT)).
    - destruct (group nm 2) as [g2|e]; [|discriminate Hv'].
      cbn [bind] in *. rewrite Hv'. cbn [bind].
      exists l2, (set_answer v t'). split; [reflexivity|].
      split; [apply (carries_pair i ABSENT v l t t' Ht Ht')|].
      split.
      + unfold l2. replace (S i) with (i + 1)%nat by lia.
        rewrite assign_lookup_eq. rewrite assign_lookup_ne by lia.
        rewrite Ht'. reflexivity.
      + rewrite Hstep2 by reflexivity. unfold l2.
        replace (S i) with (i + 1)%nat by lia.
        rewrite assign_assign. reflexivity.
    - exists (assign i ABSENT l), t'. split; [reflexivity|].
      split.
      + exists (set_answer ABSENT t). split; [|split; reflexivity].
        rewrite assign_lookup_eq, Ht. reflexivity.
      + split.
        * replace (S i) with (i + 1)%nat by lia.
          rewrite assign_lookup_ne by lia. exact Ht'.
        * rewrite Hstep2 by reflexivity. unfold l2.
          replace (S i) with (i + 1)%nat by lia. reflexivity. }
  assert (Hloop : forall fuel,
     answer_loop (2 + fuel) text i c l
     = answer_loop fuel text (i + 2) n l2).
  { intros fuel. destruct Hturns as (l1 & t1 & H1 & _ & Hl1 & H2).
    change (2 + fuel)%nat with (S (S fuel)).
    rewrite (answer_loop_turn _ _ _ _ _ _ _ _ _ Ht H1).
    rewrite (answer_loop_turn _ _ _ _ _ _ _ _ _ Hl1 H2).
    replace (S (S i)) with (i + 2)%nat by lia. reflexivity. }
  destruct (pair_outcome text i c n l t t' ABSENT v 2 Ht Ht'
              (le_n 2) Hloop) as [Hres Hend].
  destruct (carries_pair i ABSENT v l t t' Ht Ht') as [Hc Hc'].
  split; [exact Hturns|]. split; [exact Hc|]. split; [exact Hc'|].
  split.
  { intros j Hi Hi'. unfold l2. rewrite !assign_lookup_ne by lia.
    reflexivity. }
  split; [exact Hloop|]. split; [exact Hres|].
  intros Hlen fuel. apply (Hend Hlen fuel).
Qed.

(** ** Reconciling twice *)

Lemma same_tasks_sym l k : same_tasks l k -> same_tasks k l.
Proof. unfold same_tasks. congruence. Qed.

Lemma same_tasks_assign i v l k :
  same_tasks l k -> same_tasks (assign i v l) (assign i v k).
Proof.
  intros H. eapply same_tasks_trans; [|apply assign_same_tasks].
  eapply same_tasks_trans; [|exact H].
  apply same_tasks_sym, assign_same_tasks.
Qed.

Lemma same_tasks_lookup_None l k i :
  same_tasks l k -> l !! i = None -> k !! i = None.
Proof.
  intros H Hi. apply lookup_ge_None. apply lookup_ge_None in Hi.
  rewrite <- (same_tasks_length _ _ H). exact Hi.
Qed.

Lemma agree_refl l k : agree l k l k.
Proof. intros j. right. split; reflexivity. Qed.

Lemma agree_assign l k l1 k1 i v :
  same_tasks l1 k1 -> agree l k l1 k1 ->
  agree l k (assign i v l1) (assign i v k1).
Proof.
  intros Hs Ha j. destruct (decide (i = j)) as [->|Hne].
  - left. rewrite !assign_lookup_eq.
    destruct (l1 !! j) as [x|] eqn:Ex.
    + destruct (same_tasks_lookup _ _ _ _ Hs Ex) as (y & -> & Hxy).
      simpl. f_equal. unfold same_task in Hxy.
      rewrite <- (set_answer_twice v VNone x), Hxy. reflexivity.
    + rewrite (same_tasks_lookup_None _ _ _ Hs Ex). reflexivity.
  - rewrite !assign_lookup_ne by exact Hne. apply Ha.
Qed.

Lemma agree_trans l k l1 k1 l2 k2 :
  agree l k l1 k1 -> agree l1 k1 l2 k2 -> agree l k l2 k2.
Proof.
  intros H1 H2 j. destruct (H2 j) as [H|[Ha Hb]]; [left; exact H|].
  destruct (H1 j) as [H|[Hc Hd]].
  - left. congruence.
  - right. split; congruence.
Qed.

(** The turn of the loop reads the ids only: on two lists that differ
    in the answers it makes the same assignments. *)
Lemma answer_step_sync text i c l k t t2 i1 c1 l1 :
  same_tasks l k ->
  l !! i = Some t -> k !! i = Some t2 ->
  answer_step text i c l t = Ok (i1, c1, l1) ->
  exists k1, answer_step text i c k t2 = Ok (i1, c1, k1)
             /\ same_tasks l1 k1 /\ agree l k l1 k1.
Proof.
  intros Hs Ht Ht2 H.
  assert (Hid : id_tasks_book t2 = id_tasks_book t).
  { destruct (same_tasks_lookup _ _ _ _ Hs Ht) as (y & Hy & Hty).
    rewrite Ht2 in Hy. injection Hy as <-. symmetry.
    apply same_task_id. exact Hty. }
  assert (Hnext : index_list k (i + 1)
                  = match index_list l (i + 1) with
                    | Ok x => index_list k (i + 1)
                    | Raise e => Raise e
                    end).
  { unfold index_list. destruct (l !! (i + 1)%nat) eqn:E; [reflexivity|].
    rewrite (same_tasks_lookup_None _ _ _ Hs E). reflexivity. }
  assert (Hnid : forall x y, index_list l (i + 1) = Ok x ->
                   index_list k (i + 1) = Ok y ->
                   id_tasks_book y = id_tasks_book x).
  { unfold index_list. intros x y Hx Hy.
    destruct (l !! (i + 1)%nat) as [x'|] eqn:E; [|discriminate].
    injection Hx as ->.
    destruct (same_tasks_lookup _ _ _ _ Hs E) as (y' & Hy' & Hxy).
    rewrite Hy' in Hy. injection Hy as ->. symmetry.
    apply same_task_id. exact Hxy. }
  unfold answer_step in *. rewrite Hid.
  destruct (re_search RE_TASK_ID (id_tasks_book t)) as [mo|]; [|discriminate].
  cbn [bind] in *.
  destruct (the_match mo) as [m|]; [|discriminate]. cbn [bind] in *.
  destruct (group m 1) as [g1|]; [|discriminate]. cbn [bind] in *.
  destruct (truthy g1).
  - inv_ok; simplify_eq; replay; eexists; (split; [reflexivity|]);
      (split; [repeat apply same_tasks_assign; exact Hs|]);
      repeat (apply agree_assign; [repeat apply same_tasks_assign; exact Hs|]);
      apply agree_refl.
  - destruct (group m 0) as [g0|]; [|discriminate]. cbn [bind] in *.
    destruct (int_group g0) as [n|]; [|discriminate]. cbn [bind] in *.
    rewrite Hnext.
    destruct (index_list l (i + 1)) as [x|] eqn:Ex; [|discriminate].
    destruct (index_list k (i + 1)) as [y|] eqn:Ey.
    2:{ unfold index_list in Ex, Ey.
        destruct (l !! (i + 1)%nat) as [x'|] eqn:E; [|discriminate].
        destruct (same_tasks_lookup _ _ _ _ Hs E) as (y' & Hy' & _).
        rewrite Hy' in Ey. discriminate. }
    cbn [bind] in *. rewrite (Hnid _ _ eq_refl eq_refl). clear Hnext Hnid.
    inv_ok; simplify_eq; replay; eexists; (split; [reflexivity|]);
      (split; [repeat apply same_tasks_assign; exact Hs|]);
      repeat (apply agree_assign; [repeat apply same_tasks_assign; exact Hs|]);
      apply agree_refl.
Qed.

Lemma answer_loop_sync text fuel : forall i c l k l',
  same_tasks l k ->
  answer_loop fuel text i c l = Some (Ok l') ->
  exists k', answer_loop fuel text i c k = Some (Ok k') /\ agree l k l' k'.
Proof.
  induction fuel as [|fuel IH]; intros i c l k l' Hs H; [discriminate|].
  simpl in *. destruct (l !! i) as [t|] eqn:Et.
  - destruct (same_tasks_lookup _ _ _ _ Hs Et) as (t2 & Et2 & _).
    rewrite Et2.
    destruct (answer_step text i c l t) as [[[i1 c1] l1]|e] eqn:Es;
      simpl in H; [|discriminate].
    destruct (answer_step_sync _ _ _ _ _ _ _ _ _ _ Hs Et Et2 Es)
      as (k1 & -> & Hs1 & Ha1).
    simpl. destruct (IH _ _ _ _ _ Hs1 H) as (k' & Hk' & Ha').
    exists k'. split; [exact Hk'|]. eapply agree_trans; eassumption.
  - rewrite (same_tasks_lookup_None _ _ _ Hs Et).
    injection H as <-. exists k. split; [reflexivity|]. apply agree_refl.
Qed.

(** C8: reconciling the already annotated list once more, against the
    same answers, gives every task the answer it already has. *)
Theorem answer_parser_idempotent data tasks tasks' :
  answer_parser data tasks = Some (Ok tasks') ->
  answer_parser data tasks' = Some (Ok tasks').
Proof.
  unfold answer_parser. intros H.
  pose proof (answer_loop_same_tasks _ _ _ _ _ _ H) as Hs.
  destruct (answer_loop_sync _ _ _ _ _ _ _ Hs H) as (k' & Hk' & Ha).
  rewrite <- (same_tasks_length _ _ Hs), Hk'. do 2 f_equal.
  apply list_eq. intros j. destruct (Ha j) as [Hj|[_ Hj]]; congruence.
Qed.

(** ** Every task gets an answer *)

Lemma answered_below_assign_other text i a v l :
  (i <= a)%nat -> answered_below text i l ->
  answered_below text i (assign a v l).
Proof.
  intros Hia Hb j t Hj Ht. rewrite assign_lookup_ne in Ht by lia.
  eapply Hb; eassumption.
Qed.

Lemma answered_below_assign text i v l :
  extracted text v -> answered_below text i l ->
  answered_below text (S i) (assign i v l).
Proof.
  intros Hv Hb j t Hj Ht. destruct (decide (j = i)) as [->|Hne].
  - rewrite assign_lookup_eq in Ht. destruct (l !! i); [|discriminate].
    injection Ht as <-. exists v. split; [reflexivity|exact Hv].
  - rewrite assign_lookup_ne in Ht by lia. apply (Hb j); [lia|exact Ht].
Qed.

Lemma above_mark_cons mark id ids :
  above_mark mark (id :: ids) = true ->
  exists n, whole_number id = Some n /\ mark <= n
            /\ above_mark n ids = true.
Proof.
  cbn [above_mark]. destruct (whole_number id) as [n|]; [|discriminate].
  intros H. apply andb_true_iff in H as [H1 H2].
  exists n. split; [reflexivity|]. split; [lia|exact H2].
Qed.

Lemma answer_step_answers text i c l t i1 c1 l1 :
  l !! i = Some t ->
  answer_step text i c l t = Ok (i1, c1, l1) ->
  above_mark c (drop i (id_tasks_book <$> l)) = true ->
  answered_below text i l ->
  answered_below text i1 l1
  /\ above_mark c1 (drop i1 (id_tasks_book <$> l)) = true.
Proof.
  intros Ht H Hm Hb.
  rewrite (drop_S _ (id_tasks_book t) i) in Hm
    by (rewrite list_lookup_fmap, Ht; reflexivity).
  apply above_mark_cons in Hm as (n & Hw & Hcn & Hrest).
  unfold whole_number in Hw. unfold answer_step in H.
  replace (i + 1)%nat with (S i) in H by lia.
  destruct (re_search RE_TASK_ID (id_tasks_book t)) as [[m|]|];
    try discriminate.
  cbn [bind the_match] in H.
  destruct (group m 1) as [g1|]; [|discriminate]. cbn [bind] in H.
  destruct (truthy g1).
  - destruct (int_group g1) as [n'|]; [|discriminate].
    injection Hw as ->. cbn [bind] in H.
    rewrite (proj2 (Z.leb_le c n) Hcn) in H.
    inv_ok; simplify_eq; (split; [|exact Hrest]);
      (apply answered_below_assign; [|exact Hb]).
    + eapply extracted_part; eassumption.
    + eapply extracted_text; eassumption.
  - change (group m 0) with (Ok (Some (m_group0 m))) in H.
    cbn [bind int_group] in H.
    destruct (py_int (m_group0 m)) as [n'|]; [|discriminate].
    injection Hw as ->. cbn [bind] in H.
    unfold index_list in H.
    destruct (l !! S i) as [t'|] eqn:Et'; [|discriminate].
    cbn [bind] in H.
    pose proof Hrest as Hmark.
    rewrite (drop_S _ (id_tasks_book t') (S i)) in Hrest
      by (rewrite list_lookup_fmap, Et'; reflexivity).
    apply above_mark_cons in Hrest as (k & Hw' & Hnk & Hrest).
    unfold whole_number in Hw'.
    destruct (re_search RE_TASK_ID (id_tasks_book t')) as [[nm|]|];
      try discriminate.
    cbn [bind the_match] in H.
    destruct (group nm 1) as [[s|]|]; [| |discriminate]; cbn [bind] in H.
    + cbn [int_group] in H.
      destruct (py_int s) as [k'|] eqn:Ek; [|discriminate].
      rewrite (py_int_nonempty _ _ Ek) in Hw'. cbn [int_group] in Hw'.
      rewrite Ek in Hw'. injection Hw' as ->. cbn [bind] in H.
      destruct (n <? k) eqn:Elt.
      * inv_ok; simplify_eq; (split; [|exact Hrest]);
          (apply answered_below_assign;
             [|apply answered_below_assign; [|exact Hb]]).
        -- eapply extracted_part; eassumption.
        -- eapply extracted_text; eassumption.
        -- eapply extracted_text; eassumption.
        -- eapply extracted_text; eassumption.
      * assert (k = n) as -> by (apply Z.ltb_ge in Elt; lia).
        rewrite Z.eqb_refl in H.
        inv_ok; simplify_eq; (split; [|exact Hmark]).
        -- apply answered_below_assign_other; [lia|].
           apply answered_below_assign; [apply extracted_absent|exact Hb].
        -- apply answered_below_assign; [apply extracted_absent|exact Hb].
    + change (group nm 0) with (Ok (Some (m_group0 nm))) in H.
      cbn [truthy] in Hw'. cbn [bind int_group] in H.
      destruct (py_int (m_group0 nm)) as [k'|]; [|inv_ok].
      injection Hw' as ->.
      inv_ok; simplify_eq. split; [|exact Hrest].
      apply answered_below_assign;
        [|apply answered_below_assign; [|exact Hb]];
        eapply extracted_text; eassumption.
Qed.

Lemma same_tasks_ids l k :
  same_tasks l k -> id_tasks_book <$> l = id_tasks_book <$> k.
Proof.
  intros H. apply list_eq. intros j. rewrite !list_lookup_fmap.
  destruct (l !! j) as [x|] eqn:Ex.
  - destruct (same_tasks_lookup _ _ _ _ H Ex) as (y & -> & Hxy).
    simpl. f_equal. apply same_task_id. exact Hxy.
  - rewrite (same_tasks_lookup_None _ _ _ H Ex). reflexivity.
Qed.

Lemma answer_loop_answers text fuel : forall i c l l',
  answer_loop fuel text i c l = Some (Ok l') ->
  above_mark c (drop i (id_tasks_book <$> l)) = true ->
  answered_below text i l ->
  Forall (answered text) l'.
Proof.
  induction fuel as [|fuel IH]; intros i c l l' H Hm Hb; [discriminate|].
  simpl in H. destruct (l !! i) as [t|] eqn:Et.
  - destruct (answer_step text i c l t) as [[[i1 c1] l1]|e] eqn:Es;
      simpl in H; [|discriminate].
    pose proof (answer_step_facts _ _ _ _ _ _ _ _ Es) as [_ Hs].
    destruct (answer_step_answers _ _ _ _ _ _ _ _ Et Es Hm Hb) as [Hb1 Hm1].
    rewrite (same_tasks_ids _ _ Hs) in Hm1.
    eapply IH; eassumption.
  - injection H as <-. apply Forall_lookup. intros j t Hj.
    apply (Hb j t); [|exact Hj].
    apply lookup_ge_None in Et. apply lookup_lt_Some in Hj. lia.
Qed.

(** C1, as the code has it: when no task's whole number falls below the
    high-water mark [current_task_num] (the whole numbers are
    non-negative and never decrease along the list) and the reconciler
    runs to completion, every task of the returned list carries an
    answer, which is the text or a part of an answer block, or ABSENT;
    nothing but the answers has changed; and an anchor that is not found
    in the answers text gives ABSENT and no error. *)
Theorem answer_parser_assigns_every_task data tasks tasks' :
  above_mark 0 (id_tasks_book <$> tasks) = true ->
  answer_parser data tasks = Some (Ok tasks') ->
  Forall (answered (join_lines data)) tasks'
  /\ same_tasks tasks tasks'
  /\ (forall n, re_search (str_of_int n ++ RE_ANSWER_TEXT) (join_lines data)
                = Ok None ->
                get_answer_text n (join_lines data) = Ok ABSENT).
Proof.
  intros Hm H. split; [|split].
  - eapply answer_loop_answers; [exact H|exact Hm|].
    intros j t Hj. lia.
  - eapply answer_loop_same_tasks. exact H.
  - intros n Hn. unfold get_answer_text. rewrite Hn. reflexivity.
Qed.

(** ** Task records *)

Lemma drop_last_snoc s c : drop_last (s ++ [c]) = s.
Proof. apply removelast_last. Qed.

Lemma drop_last_strips s c :
  last s = Some c -> s = drop_last s ++ [c].
Proof.
  intros H. apply last_Some in H as [s' ->].
  rewrite drop_last_snoc. reflexivity.
Qed.

Lemma get_task_data_paragraph m par previous exclusive t :
  get_task_data m par previous exclusive = Ok t ->
  paragraph t = par /\ answer t = None.
Proof.
  unfold get_task_data. intros H. inv_ok; simplify_eq; split; reflexivity.
Qed.

(** C4: in each of its three cases [get_task_data] stores the assembled
    id without its last character, so the closing punctuation mark of
    the printed number is not part of ['id_tasks_book']. *)
Theorem get_task_data_strips_last_character m par previous exclusive t :
  get_task_data m par previous exclusive = Ok t ->
  exists s,
    assembled_id m previous exclusive = Ok s
    /\ id_tasks_book t = drop_last s
    /\ (forall c, last s = Some c -> s = id_tasks_book t ++ [c]).
Proof.
  unfold get_task_data, assembled_id, sub_drop_last, concat. intros H.
  destruct exclusive.
  - inv_ok; simplify_eq. eexists. split; [reflexivity|].
    split; [reflexivity|]. apply drop_last_strips.
  - destruct (group m 1) as [[s1|]|]; cbn [bind] in *; [| |discriminate].
    + inv_ok; simplify_eq. eexists. split; [reflexivity|].
      split; [reflexivity|]. apply drop_last_strips.
    + destruct previous as [prev|]; cbn [bind] in *; [|discriminate].
      inv_ok; simplify_eq. eexists. split; [reflexivity|].
      split; [reflexivity|]. apply drop_last_strips.
Qed.

Lemma get_task_data_implicit m par ref t :
  group m 1 = Ok None ->
  get_task_data m par ref false = Ok t ->
  exists previous g4,
    ref = Some previous /\ group m 4 = Ok (Some g4)
    /\ id_tasks_book t = continuation_id previous g4.
Proof.
  unfold get_task_data, continuation_id, concat. intros Hg H.
  rewrite Hg in H. cbn [bind] in H.
  destruct ref as [prev|]; cbn [bind] in H; [|discriminate].
  inv_ok; simplify_eq. exists prev. eexists. repeat split.
Qed.

(** What [find_next_task] appends: one record per paragraph that it
    walked over, each built from the task match of that paragraph with
    the same reference and the same chapter. *)
Lemma find_next_task_from_appends rest : forall tasks i ref par j tasks',
  find_next_task_from rest tasks i ref par = Ok (j, tasks') ->
  exists new,
    tasks' = tasks ++ new /\ j = (i + length new)%nat
    /\ (length new < length rest)%nat
    /\ forall k text t,
         rest !! k = Some text -> new !! k = Some t ->
         exists m, re_search RE_TASK text = Ok (Some m)
                   /\ get_task_data m par ref false = Ok t.
Proof.
  induction rest as [|text rest IH]; intros tasks i ref par j tasks' H;
    [discriminate|].
  cbn [find_next_task_from] in H.
  destruct (re_search RE_TASK text) as [[tm|]|] eqn:Etm; cbn [bind] in H;
    [| |discriminate].
  - destruct (re_search RE_SUPREME_CHAPTER text) as [[sm|]|];
      cbn [bind] in H; [| |discriminate].
    + injection H as <- <-. exists []. rewrite app_nil_r.
      repeat split; [simpl; lia|simpl; lia|]. intros k x t _ Hk.
      discriminate.
    + destruct (get_task_data tm par ref false) as [t0|] eqn:Et0;
        cbn [bind] in H; [|discriminate].
      destruct (IH _ _ _ _ _ _ H) as (new & -> & -> & Hlen & Hnew).
      exists (t0 :: new). rewrite <- app_assoc. repeat split.
      * simpl. lia.
      * simpl. lia.
      * intros [|k] x t Hx Ht; simpl in Hx, Ht.
        -- injection Hx as <-. injection Ht as <-. eauto.
        -- eapply Hnew; eassumption.
  - injection H as <- <-. exists []. rewrite app_nil_r.
    repeat split; [simpl; lia|simpl; lia|]. intros k x t _ Hk.
    discriminate.
Qed.

(** ** The turns of the main loop *)

Lemma get_chapter_data_fields id m parent c :
  get_chapter_data id m parent = Ok c ->
  chapter_id c = id /\ chapter_parent c = parent.
Proof.
  unfold get_chapter_data. intros H. inv_ok; simplify_eq; split; reflexivity.
Qed.

Lemma last_item_Ok {A} (l : list A) x : last_item l = Ok x -> last l = Some x.
Proof. unfold last_item. destruct (last l); intros H; inv_ok; congruence. Qed.

Lemma find_next_task_appends data tasks i ref par j tasks' :
  find_next_task data tasks i ref par = Ok (j, tasks') ->
  exists new,
    tasks' = tasks ++ new /\ j = (i + length new)%nat
    /\ Forall (fun t => paragraph t = par) new
    /\ forall k text t,
         drop i data !! k = Some text -> new !! k = Some t ->
         exists m, re_search RE_TASK text = Ok (Some m)
                   /\ get_task_data m par ref false = Ok t.
Proof.
  unfold find_next_task. intros H.
  apply find_next_task_from_appends in H as (new & H1 & H2 & Hlen & H3).
  exists new. repeat split; try assumption.
  apply Forall_lookup. intros k t Ht.
  destruct (lookup_lt_is_Some_2 (drop i data) k) as [text Htext].
  { apply lookup_lt_Some in Ht. lia. }
  destruct (H3 _ _ _ Htext Ht) as (m & _ & Hm).
  apply get_task_data_paragraph in Hm as [Hm _]. exact Hm.
Qed.

Lemma find_next_chapter_index data i m n :
  find_next_chapter data i = Ok (m, n) ->
  n = i /\ exists text, data !! i = Some text
                        /\ re_search RE_CHAPTER text = Ok m.
Proof.
  unfold find_next_chapter, index_list. intros H.
  destruct (data !! i) as [text|]; cbn [bind] in H; [|discriminate].
  inv_ok; simplify_eq. split; [reflexivity|]. eauto.
Qed.

Lemma parser_step_kind data st text st' :
  parser_step data st text = Ok (Continue st') ->
  (index st < index st')%nat /\ turn_kind text st st'.
Proof.
  unfold parser_step. intros H. inv_ok; simplify_eq; cbn [index].
  all: repeat match goal with
       | H : get_chapter_data _ _ _ = Ok _ |- _ =>
           apply get_chapter_data_fields in H as [? ?]
       | H : last_item _ = Ok _ |- _ => apply last_item_Ok in H
       | H : find_next_task _ _ _ _ _ = Ok _ |- _ =>
           apply find_next_task_appends in H as (? & ? & ? & ? & _)
       | H : find_next_chapter _ _ = Ok _ |- _ =>
           apply find_next_chapter_index in H as [? _]
       | H : get_task_data _ _ _ _ = Ok _ |- _ =>
           apply get_task_data_paragraph in H as [? ?]
       end.
  all: simplify_eq.
  all: (split; [lia|]).
  all: try match goal with
       | |- turn_kind _ _
              {| chapters_data := (chapters_data _ ++ [?c1]) ++ [?c2] |} =>
           apply (turn_chapters _ _ _ [c1; c2]); cbn
       | |- turn_kind _ _ {| chapters_data := chapters_data _ ++ [?c1] |} =>
           apply (turn_chapters _ _ _ [c1]); cbn
       | L : last (chapters_data _) = Some ?lc
         |- turn_kind _ _ {| tasks_data := (tasks_data _ ++ [?t]) ++ ?x |} =>
           apply (turn_tasks _ _ _ lc (t :: x)); cbn
       | L : last (chapters_data _) = Some ?lc
         |- turn_kind _ _ {| tasks_data := tasks_data _ ++ [?t] |} =>
           apply (turn_tasks _ _ _ lc [t]); cbn
       end.
  all: try discriminate.
  all: try reflexivity.
  all: try assumption.
  all: try (rewrite <- app_assoc; reflexivity).
  all: try lia.
  all: try (left; eexists; eassumption).
  all: try (right; eexists; eassumption).
  all: try (left; reflexivity).
  all: try (right; reflexivity).
  all: try (constructor; [assumption|]; first [assumption|constructor]).
  all: try (intros [|[|k]] c Hc; simpl in Hc; simplify_eq;
            (split; [lia|]);
            [left; assumption|right; right; split; [lia|assumption]]).
  all: try (intros [|k] c Hc; simpl in Hc; simplify_eq;
            split; [lia|]; auto).
Qed.

Lemma state_inv_initial : state_inv initial.
Proof.
  split; [intros i c Hi; discriminate Hi|].
  split; [reflexivity|]. split; [left; reflexivity|].
  intros t Ht. apply elem_of_nil in Ht. contradiction.
Qed.

Lemma turn_kind_inv text st st' :
  state_inv st -> turn_kind text st st' -> state_inv st'.
Proof.
  intros (Hwf & Hid & Hsup & Htasks) [cs Hne Hch Hts _ Hcur Hcs Hsup'
                                     |lc new Hch Hsup' Hcur Hlast Hts _ Hnew].
  - assert (Hfirst : exists c0, cs !! 0%nat = Some c0
                                /\ chapter_id c0 = current_id st).
    { destruct cs as [|c0 cs]; [contradiction|]. exists c0.
      split; [reflexivity|]. destruct (Hcs 0%nat c0 eq_refl) as [H _].
      lia. }
    destruct Hfirst as (c0 & Hc0 & Hc0id).
    assert (Hc0' : (chapters_data st ++ cs) !! length (chapters_data st)
                   = Some c0).
    { rewrite lookup_app_r by lia. rewrite Nat.sub_diag. exact Hc0. }
    assert (Hold : supreme_chapter_id st = 0
                   \/ exists j p, (j < length (chapters_data st))%nat
                        /\ (chapters_data st ++ cs) !! j = Some p
                        /\ chapter_id p = supreme_chapter_id st).
    { destruct Hsup as [H|(j & q & Hj & Hq)]; [left; exact H|]. right.
      exists j, q. split; [eapply lookup_lt_Some; exact Hj|].
      split; [apply lookup_app_l_Some; exact Hj|exact Hq]. }
    split; [|split; [|split]].
    + rewrite Hch. intros i c Hi. apply lookup_app_Some in Hi as [Hi|[Hle Hi]].
      * destruct (Hwf i c Hi) as [H1 H2]. split; [exact H1|].
        destruct H2 as [H2|(j & q & Hj & Hq & Hqid)]; [left; exact H2|].
        right. exists j, q. split; [exact Hj|].
        split; [apply lookup_app_l_Some; exact Hq|exact Hqid].
      * destruct (Hcs _ _ Hi) as [H1 H2]. split; [lia|].
        destruct H2 as [H2|[H2|[Hk H2]]].
        -- left. exact H2.
        -- rewrite H2. destruct Hold as [H|(j & q & Hj & Hq & Hqid)];
             [left; exact H|].
           right. exists j, q. split; [lia|]. split; assumption.
        -- right. exists (length (chapters_data st)), c0.
           split; [lia|]. split; [exact Hc0'|]. congruence.
    + rewrite Hcur, Hch, length_app. lia.
    + rewrite Hch. destruct Hsup' as [->| ->].
      * destruct Hold as [H|(j & q & _ & Hq & Hqid)]; [left; exact H|].
        right. exists j, q. split; assumption.
      * right. exists (length (chapters_data st)), c0.
        split; [exact Hc0'|exact Hc0id].
    + rewrite Hch, Hts. intros t Ht. destruct (Htasks t Ht) as (c & Hc & Hcid).
      exists c. split; [|exact Hcid]. apply elem_of_app. left. exact Hc.
  - split; [|split; [|split]].
    + rewrite Hch. exact Hwf.
    + rewrite Hcur, Hch. exact Hid.
    + rewrite Hch, Hsup'. exact Hsup.
    + rewrite Hch, Hts. intros t Ht. apply elem_of_app in Ht as [Ht|Ht].
      * apply Htasks. exact Ht.
      * exists lc. split; [apply last_Some_elem_of; exact Hlast|].
        rewrite Forall_forall in Hnew. symmetry. apply Hnew. exact Ht.
Qed.

Lemma reaches_inv data st st' :
  state_inv st -> reaches data st st' -> state_inv st'.
Proof.
  intros Hinv H. induction H as [|text st1 st2 _ IH _ Hstep]; [exact Hinv|].
  apply parser_step_kind in Hstep as [_ Hk].
  eapply turn_kind_inv; eassumption.
Qed.

Lemma reaches_front data st text st1 st2 :
  data !! index st = Some text ->
  parser_step data st text = Ok (Continue st1) ->
  reaches data st1 st2 -> reaches data st st2.
Proof.
  intros Ht Hs H. induction H as [|text' sta stb _ IH Ht' Hs'].
  - eapply reaches_turn; [apply reaches_here|exact Ht|exact Hs].
  - eapply reaches_turn; [exact IH|exact Ht'|exact Hs'].
Qed.

(** ** The main loop ends *)

Lemma parser_loop_total data fuel : forall st,
  (length data - index st < fuel)%nat ->
  exists r, parser_loop fuel data st = Some r.
Proof.
  induction fuel as [|fuel IH]; intros st Hf; [lia|].
  simpl. destruct (data !! index st) as [text|] eqn:Et; [|eauto].
  destruct (parser_step data st text) as [[st'|answers]|e] eqn:Es; simpl;
    [|eauto|eauto].
  apply parser_step_kind in Es as [Hi _]. apply IH.
  apply lookup_lt_Some in Et. lia.
Qed.

Lemma parser_loop_mono data fuel : forall st r fuel',
  parser_loop fuel data st = Some r -> (fuel <= fuel')%nat ->
  parser_loop fuel' data st = Some r.
Proof.
  induction fuel as [|fuel IH]; intros st r fuel' H Hle; [discriminate|].
  destruct fuel' as [|fuel']; [lia|]. simpl in *.
  destruct (data !! index st) as [text|]; [|exact H].
  destruct (parser_step data st text) as [[st'|answers]|e]; simpl in *;
    [|exact H|exact H].
  apply IH; [exact H|lia].
Qed.

Lemma parser_loop_reaches data st st' :
  reaches data st st' ->
  forall fuel r, parser_loop fuel data st' = Some r ->
  exists fuel', parser_loop fuel' data st = Some r.
Proof.
  intros H. induction H as [|text st1 st2 _ IH Ht Hs]; intros fuel r Hr.
  - eauto.
  - apply (IH (S fuel)). simpl. rewrite Ht, Hs. exact Hr.
Qed.

(** What the loop does from a state that it reaches is what the whole
    loop does. *)
Lemma parser_loop_from_reached data st fuel r :
  reaches data initial st ->
  parser_loop fuel data st = Some r ->
  parser_loop (S (length data)) data initial = Some r.
Proof.
  intros Hreach Hr.
  destruct (parser_loop_reaches _ _ _ Hreach _ _ Hr) as [fuel' Hf].
  destruct (parser_loop_total data (S (length data)) initial) as [r0 Hr0];
    [simpl; lia|].
  pose proof (parser_loop_mono _ _ _ _ (fuel' + S (length data)) Hf
                ltac:(lia)) as H1.
  pose proof (parser_loop_mono _ _ _ _ (fuel' + S (length data)) Hr0
                ltac:(lia)) as H2.
  congruence.
Qed.

(** The lists that the loop returns are those of a state it reached. *)
Lemma parser_loop_result data fuel : forall st tasks chapters answers,
  parser_loop fuel data st = Some (Ok (tasks, chapters, answers)) ->
  exists st', reaches data st st'
              /\ tasks = tasks_data st' /\ chapters = chapters_data st'.
Proof.
  induction fuel as [|fuel IH]; intros st tasks chapters answers H;
    [discriminate|].
  simpl in H. destruct (data !! index st) as [text|] eqn:Et.
  - destruct (parser_step data st text) as [[st1|ans]|e] eqn:Es; simpl in H;
      [| |discriminate].
    + destruct (IH _ _ _ _ H) as (st' & Hr & -> & ->).
      exists st'. split; [|split; reflexivity].
      eapply reaches_front; eassumption.
    + injection H as <- <- <-. exists st.
      split; [apply reaches_here|split; reflexivity].
  - injection H as <- <- <-. exists st.
    split; [apply reaches_here|split; reflexivity].
Qed.

(** The fuel that [parser] hands to its loops suffices. *)
Lemma parser_total doc : exists r, parser doc = Some r.
Proof.
  unfold parser.
  destruct (parser_loop_total (map strip doc) (S (length (map strip doc)))
              initial) as [r ->]; [simpl; lia|].
  destruct r as [[[tasks chapters] answers]|e]; [|eauto].
  destruct (bool_decide (answers <> [])); [|eauto].
  destruct (answer_parser_total answers tasks) as [[tasks'|e] ->]; eauto.
Qed.

Lemma parser_result doc tasks chapters authors :
  parser doc = Some (Ok (tasks, chapters, authors)) ->
  exists st, reaches (map strip doc) initial st
             /\ same_tasks (tasks_data st) tasks
             /\ chapters = chapters_data st.
Proof.
  unfold parser. intros H.
  destruct (parser_loop (S (length (map strip doc))) (map strip doc) initial)
    as [[[[tasks0 chapters0] answers]|e]|] eqn:El; try discriminate.
  destruct (parser_loop_result _ _ _ _ _ _ El) as (st & Hr & -> & ->).
  exists st. split; [exact Hr|].
  destruct (bool_decide (answers <> [])).
  - destruct (answer_parser answers (tasks_data st)) as [[tasks'|e]|] eqn:Ea;
      try discriminate.
    injection H as <- <- _. split; [|reflexivity].
    eapply answer_loop_same_tasks. exact Ea.
  - injection H as <- <- _. split; [apply same_tasks_refl|reflexivity].
Qed.

(** ** Chapter records *)

(** C7: the chapter records, in the order of their discovery, have the
    ids 1, 2, 3, ..., and the parent of each is 0 or the id of a record
    emitted before it.  This holds of the chapter list at every moment of
    a run, and so of the list that [parser] returns. *)
Theorem parser_chapters_wf doc :
  (forall st, reaches (map strip doc) initial st ->
              chapters_wf (chapters_data st))
  /\ (forall tasks chapters authors,
        parser doc = Some (Ok (tasks, chapters, authors)) ->
        chapters_wf chapters).
Proof.
  assert (H : forall st, reaches (map strip doc) initial st ->
                         chapters_wf (chapters_data st)).
  { intros st Hr. apply (reaches_inv _ _ _ state_inv_initial Hr). }
  split; [exact H|].
  intros tasks chapters authors Hp.
  destruct (parser_result _ _ _ _ Hp) as (st & Hr & _ & ->).
  apply H. exact Hr.
Qed.

(** ** Tasks and their chapters *)

Lemma group_defined m k :
  (k < length (m_groups m))%nat -> exists g, group m (S k) = Ok g.
Proof.
  intros H. unfold group.
  destruct (lookup_lt_is_Some_2 _ _ H) as [g ->]. eauto.
Qed.

Lemma first_turn_task_fails data text :
  treated_as_task initial text ->
  parser_step data initial text = Raise IndexError_list.
Proof.
  intros [(Hs & Hc & tm & Ht & Hlen)
         |(sm & g1 & s & n & tmo & Hs & Hg1 & Hd & Hn & Ht & Hb & Hc)];
    unfold parser_step.
  - rewrite Hs. cbn [bind]. rewrite Hc. cbn [bind]. rewrite Ht. cbn [bind].
    unfold previous_id_of.
    destruct (group_defined tm 3 ltac:(lia)) as [g4 ->].
    destruct (group_defined tm 0 ltac:(lia)) as [g1 ->].
    cbn [bind]. destruct (truthy g4); reflexivity.
  - rewrite Hs. cbn [bind]. rewrite Hg1. cbn [bind]. rewrite Hd. cbn [bind].
    rewrite Hn. cbn [bind]. rewrite Ht. cbn [bind]. rewrite Hb, Hc.
    reflexivity.
Qed.

Lemma reached_chapters data st :
  reaches data initial st ->
  st = initial
  \/ exists text0 rest, data = text0 :: rest /\ heading text0
                        /\ chapters_data st <> [].
Proof.
  intros H. induction H as [|text st1 st2 _ IH Ht Hs]; [left; reflexivity|].
  right. apply parser_step_kind in Hs as [_ Hk].
  destruct IH as [->|(text0 & rest & Hd & Hh & Hne)].
  - destruct data as [|text0 rest]; [discriminate|].
    injection Ht as ->. exists text, rest. split; [reflexivity|].
    destruct Hk as [cs Hcs Hch _ Hh _ _ _|lc new _ _ _ Hl _ _ _].
    + split; [exact Hh|]. rewrite Hch. simpl. exact Hcs.
    + discriminate Hl.
  - exists text0, rest. split; [exact Hd|]. split; [exact Hh|].
    destruct Hk as [cs _ Hch _ _ _ _ _|lc new Hch _ _ _ _ _ _]; rewrite Hch.
    + intros H. apply app_eq_nil in H as [H _]. contradiction.
    + exact Hne.
Qed.

Lemma same_tasks_nil l : same_tasks [] l -> l = [].
Proof.
  intros H. apply same_tasks_length in H. destruct l; [reflexivity|].
  discriminate.
Qed.

Lemma same_tasks_in_chapters l l' chapters :
  same_tasks l l' -> tasks_in_chapters l chapters ->
  tasks_in_chapters l' chapters.
Proof.
  intros Hs H t' Ht'. apply list_elem_of_lookup in Ht' as [i Hi].
  destruct (same_tasks_lookup _ _ _ _ (same_tasks_sym _ _ Hs) Hi)
    as (t & Ht & Htt).
  destruct (H t (list_elem_of_lookup_2 _ _ _ Ht)) as (c & Hc & Hcid).
  exists c. split; [exact Hc|]. rewrite Hcid. symmetry.
  apply same_task_paragraph. exact Htt.
Qed.

Lemma parser_of_loop_error doc e :
  parser_loop (S (length (map strip doc))) (map strip doc) initial
  = Some (Raise e) ->
  parser doc = Some (Raise e).
Proof. unfold parser. intros ->. reflexivity. Qed.

(** C10, as the code has it: a paragraph that the main loop treats as a
    task while no chapter record exists is the first paragraph of the
    stream, and the turn ends in the IndexError of a list index out of
    range (reading the last task for the reference, or the last chapter),
    not in the classification error.  When [parser] returns, every
    task's chapter is the id of an emitted chapter, and either the result
    has no task and no chapter (the stream is empty or starts with the
    answers section) or the first paragraph is a chapter heading. *)
Theorem parser_first_paragraph doc :
  (forall st text,
     reaches (map strip doc) initial st ->
     chapters_data st = [] ->
     map strip doc !! index st = Some text ->
     treated_as_task st text ->
     index st = 0%nat /\ parser doc = Some (Raise IndexError_list))
  /\ (forall tasks chapters authors,
        parser doc = Some (Ok (tasks, chapters, authors)) ->
        tasks_in_chapters tasks chapters
        /\ ((tasks = [] /\ chapters = [])
            \/ exists text0 rest,
                 map strip doc = text0 :: rest /\ heading text0
                 /\ chapters <> [])).
Proof.
  split.
  - intros st text Hr Hch Ht Htask.
    destruct (reached_chapters _ _ Hr) as [->|(_ & _ & _ & _ & Hne)];
      [|contradiction].
    split; [reflexivity|].
    apply parser_of_loop_error.
    apply (parser_loop_from_reached _ initial 1 _ (reaches_here _ _)).
    simpl. simpl in Ht. rewrite Ht.
    rewrite (first_turn_task_fails _ _ Htask). reflexivity.
  - intros tasks chapters authors Hp.
    destruct (parser_result _ _ _ _ Hp) as (st & Hr & Hs & ->).
    pose proof (reaches_inv _ _ _ state_inv_initial Hr)
      as (_ & _ & _ & Htc).
    split; [eapply same_tasks_in_chapters; eassumption|].
    destruct (reached_chapters _ _ Hr) as [->|H]; [|right; exact H].
    left. split; [|reflexivity]. apply same_tasks_nil. exact Hs.
Qed.

(** ** Paragraphs without structure, and the answers section *)

(** C3: when the cursor of the main loop comes to a paragraph that is
    no supreme chapter, no sub-chapter, no task and not the title of the
    answers section, [parser] raises the ValueError whose message holds
    the index and the text of that paragraph; it returns no lists. *)
Theorem parser_unrecognised_paragraph doc st text :
  reaches (map strip doc) initial st ->
  map strip doc !! index st = Some text ->
  unrecognised text ->
  parser doc
  = Some (Raise (ValueError (unrecognised_message (index st) text))).
Proof.
  intros Hr Ht (Hs & Hc & Hk & Hne).
  apply parser_of_loop_error.
  apply (parser_loop_from_reached _ st 1 _ Hr).
  simpl. rewrite Ht. unfold parser_step.
  rewrite Hs. cbn [bind]. rewrite Hc. cbn [bind]. rewrite Hk. cbn [bind].
  rewrite bool_decide_eq_false_2 by exact Hne. reflexivity.
Qed.

Lemma collect_answers_spec rest : forall acc,
  exists taken tail,
    collect_answers rest acc = acc ++ taken
    /\ rest = taken ++ tail
    /\ Forall (fun x => ~ is_contents x) taken
    /\ (tail = [] \/ exists b tl, tail = b :: tl /\ is_contents b).
Proof.
  induction rest as [|text rest IH]; intros acc.
  - exists [], []. rewrite app_nil_r. repeat split; auto.
  - cbn [collect_answers]. case_bool_decide as Hb.
    + exists [], (text :: rest). rewrite app_nil_r. repeat split; eauto.
    + destruct (IH (acc ++ [text])) as (taken & tail & H1 & H2 & H3 & H4).
      exists (text :: taken), tail. rewrite H1, <- app_assoc.
      repeat split; [rewrite H2; reflexivity| |exact H4].
      constructor; [exact Hb|exact H3].
Qed.

(** C6: when the cursor of the main loop comes to the paragraph
    ["Ответы и советы"] (which is no chapter and no task), the loop ends
    there: it returns the tasks and chapters found so far, and as answers
    the paragraphs that follow, unchanged and in order, up to the first
    one whose lowercased, trimmed text is ["оглавление"], or up to the end
    of the stream. *)
Theorem parser_answers_section doc st :
  let data := map strip doc in
  let title := u "Ответы и советы" in
  reaches data initial st ->
  data !! index st = Some title ->
  re_search RE_SUPREME_CHAPTER title = Ok None ->
  re_search RE_CHAPTER title = Ok None ->
  re_search RE_TASK title = Ok None ->
  exists answers tail,
    parser_loop (S (length data)) data initial
    = Some (Ok (tasks_data st, chapters_data st, answers))
    /\ drop (index st + 1) data = answers ++ tail
    /\ Forall (fun x => ~ is_contents x) answers
    /\ (tail = [] \/ exists b tl, tail = b :: tl /\ is_contents b).
Proof.
  intros data title Hr Ht Hs Hc Hk.
  destruct (collect_answers_spec (drop (index st + 1) data) [])
    as (taken & tail & H1 & H2 & H3 & H4).
  exists taken, tail. split; [|auto].
  apply (parser_loop_from_reached _ st 1 _ Hr).
  simpl. rewrite Ht. unfold parser_step. fold title.
  rewrite Hs. cbn [bind]. rewrite Hc. cbn [bind]. rewrite Hk. cbn [bind].
  rewrite bool_decide_eq_true_2 by reflexivity.
  simpl. rewrite H1. reflexivity.
Qed.

(** ** Continuations *)

(** C2, as the code has it: the continuations that follow a task
    paragraph are built with the [previous_id] reference of the run, which
    is group 1 of the run's first task (on a line that is not a
    supreme-chapter line and whose own group 4 is non-empty: the id of the
    last task before the run), and not with the id of the task just before
    them.  The id of a continuation that is linked to the first task by
    paragraphs without leading number only is that reference, with a ['.']
    appended unless it ends in one, followed by the continuation's group 4,
    without the last character; it has the chapter of the first task. *)
Theorem continuation_ids data st text tm st' :
  re_search RE_TASK text = Ok (Some tm) ->
  parser_step data st text = Ok (Continue st') ->
  chapters_data st' = chapters_data st ->
  exists ref t0 new,
    run_reference st text tm = Ok ref
    /\ (forall g4, group tm 4 = Ok g4 -> truthy g4 = false ->
                   group tm 1 = Ok ref)
    /\ tasks_data st' = tasks_data st ++ t0 :: new
    /\ index st' = (index st + 1 + length new)%nat
    /\ forall k t,
         new !! k = Some t ->
         implicit_run (drop (index st + 1) data) k ->
         exists previous text' m g4,
           ref = Some previous
           /\ drop (index st + 1) data !! k = Some text'
           /\ re_search RE_TASK text' = Ok (Some m)
           /\ group m 4 = Ok (Some g4)
           /\ id_tasks_book t = continuation_id previous g4
           /\ paragraph t = paragraph t0.
Proof.
  intros Hm H Hch.
  assert (Href : forall ref, run_reference st text tm = Ok ref ->
            forall g4, group tm 4 = Ok g4 -> truthy g4 = false ->
                       group tm 1 = Ok ref).
  { unfold run_reference, previous_id_of. intros ref Hr g4 Hg4 Hf.
    destruct (re_search RE_SUPREME_CHAPTER text) as [[sm|]|];
      cbn [bind] in Hr; [exact Hr| |discriminate].
    rewrite Hg4 in Hr. cbn [bind] in Hr. rewrite Hf in Hr. exact Hr. }
  cut (exists ref t0 new,
    run_reference st text tm = Ok ref
    /\ tasks_data st' = tasks_data st ++ t0 :: new
    /\ index st' = (index st + 1 + length new)%nat
    /\ forall k t,
         new !! k = Some t ->
         implicit_run (drop (index st + 1) data) k ->
         exists previous text' m g4,
           ref = Some previous
           /\ drop (index st + 1) data !! k = Some text'
           /\ re_search RE_TASK text' = Ok (Some m)
           /\ group m 4 = Ok (Some g4)
           /\ id_tasks_book t = continuation_id previous g4
           /\ paragraph t = paragraph t0).
  { intros (ref & t0 & new & H1 & H2 & H3 & H4).
    exists ref, t0, new. split; [exact H1|].
    split; [apply Href; exact H1|]. auto. }
  clear Href. unfold run_reference. unfold parser_step in H.
  rewrite Hm in H.
  inv_ok; simplify_eq; cbn [chapters_data tasks_data index] in *.
  all: try (exfalso; apply (f_equal length) in Hch;
            rewrite ?length_app in Hch; simpl in Hch; lia).
  all: match goal with
       | H : find_next_task _ _ _ _ _ = Ok _ |- _ =>
           apply find_next_task_appends in H as (new & -> & -> & _ & Hnew)
       end.
  all: match goal with
       | H : get_task_data _ _ _ false = Ok ?t |- _ =>
           pose proof (get_task_data_paragraph _ _ _ _ _ H) as [Hpar _];
           cbn [bind]; eexists _, t, new
       end.
  all: (split; [reflexivity|]).
  all: (split; [rewrite <- app_assoc; reflexivity|]).
  all: (split; [reflexivity|]).
  all: intros k t Ht Hrun;
       destruct (Hrun k (le_n k)) as (text' & mk & Hk & Hm' & Hg1);
       destruct (Hnew _ _ _ Hk Ht) as (m' & Hm'' & Hgt);
       rewrite Hm' in Hm''; injection Hm'' as <-;
       destruct (get_task_data_implicit _ _ _ _ Hg1 Hgt)
         as (previous & g4 & Hp & Hg4 & Hid);
       exists previous, text', mk, g4;
       apply get_task_data_paragraph in Hgt as [Hgt _];
       repeat split; try assumption; congruence.
Qed.

(** ** Further properties: the answers that are looked up *)

Lemma lstrip_head s c r : lstrip s = c :: r -> is_space c = false.
Proof.
  induction s as [|x s IH]; simpl; [discriminate|].
  destruct (is_space x) eqn:Ex; [exact IH|].
  intros H. injection H as <- _. exact Ex.
Qed.

Lemma lstrip_suffix s : exists p, s = p ++ lstrip s.
Proof.
  induction s as [|x s [p IH]]; simpl; [exists []; reflexivity|].
  destruct (is_space x).
  - exists (x :: p). simpl. f_equal. exact IH.
  - exists []. reflexivity.
Qed.

Lemma last_rev (a : str) : last (rev a) = head a.
Proof. destruct a as [|x a]; [reflexivity|]. simpl. apply last_snoc. Qed.

Lemma head_rev (b : str) : head (rev b) = last b.
Proof. rewrite <- (rev_involutive b) at 2. symmetry. apply last_rev. Qed.

Lemma strip_stripped s : stripped (strip s).
Proof.
  unfold strip. destruct (lstrip_suffix (rev (lstrip s))) as [p Hp].
  split; intros c Hc.
  - rewrite head_rev in Hc.
    assert (Hl : last (rev (lstrip s)) = Some c).
    { rewrite Hp, last_app, Hc. reflexivity. }
    rewrite last_rev in Hl.
    destruct (lstrip s) as [|x r] eqn:E; [discriminate|].
    injection Hl as ->. eapply lstrip_head. exact E.
  - rewrite last_rev in Hc.
    destruct (lstrip (rev (lstrip s))) as [|x r] eqn:E; [discriminate|].
    injection Hc as ->. eapply lstrip_head. exact E.
Qed.

(** Whatever [get_answer_text] and [get_answer_part] return is the
    sentinel or a string that neither starts nor ends with a
    whitespace character. *)
Theorem looked_up_answers_are_stripped :
  (forall n text v, get_answer_text n text = Ok v -> clean_answer v)
  /\ (forall part a v, get_answer_part part a = Ok v -> clean_answer v).
Proof.
  split.
  - unfold get_answer_text. intros n text v H. inv_ok; simplify_eq.
    + right. eexists. split; [reflexivity|apply strip_stripped].
    + left. reflexivity.
  - unfold get_answer_part. intros part a v H. inv_ok; simplify_eq.
    + right. eexists. split; [reflexivity|apply strip_stripped].
    + left. reflexivity.
Qed.

(** ** Further properties: where a run of tasks stops *)

Lemma find_next_task_from_stops rest : forall tasks i ref par j tasks',
  find_next_task_from rest tasks i ref par = Ok (j, tasks') ->
  (i <= j)%nat
  /\ exists text, rest !! (j - i)%nat = Some text
       /\ (re_search RE_TASK text = Ok None
           \/ exists tm sm, re_search RE_TASK text = Ok (Some tm)
                /\ re_search RE_SUPREME_CHAPTER text = Ok (Some sm)).
Proof.
  induction rest as [|text rest IH]; intros tasks i ref par j tasks' H;
    [discriminate|].
  cbn [find_next_task_from] in H.
  destruct (re_search RE_TASK text) as [[tm|]|] eqn:Etm; cbn [bind] in H;
    [| |discriminate].
  - destruct (re_search RE_SUPREME_CHAPTER text) as [[sm|]|] eqn:Esm;
      cbn [bind] in H; [| |discriminate].
    + injection H as <- <-. split; [lia|]. rewrite Nat.sub_diag.
      exists text. split; [reflexivity|]. right. eauto.
    + destruct (get_task_data tm par ref false) as [t0|];
        cbn [bind] in H; [|discriminate].
      destruct (IH _ _ _ _ _ _ H) as (Hle & x & Hx & Hstop).
      split; [lia|]. exists x. split; [|exact Hstop].
      replace (j - i)%nat with (S (j - S i)) by lia. exact Hx.
  - injection H as <- <-. split; [lia|]. rewrite Nat.sub_diag.
    exists text. split; [reflexivity|]. left. exact Etm.
Qed.

(** When [find_next_task] returns, the index it returns is that of a
    paragraph of the stream, at or behind the one it started from, which
    does not match the task pattern or matches the supreme-chapter
    pattern as well; a run of tasks that goes on to the end of the stream
    makes it fail. *)
Theorem find_next_task_stops_at_paragraph data tasks i ref par j tasks' :
  find_next_task data tasks i ref par = Ok (j, tasks') ->
  (i <= j < length data)%nat
  /\ exists text, data !! j = Some text
       /\ (re_search RE_TASK text = Ok None
           \/ exists tm sm, re_search RE_TASK text = Ok (Some tm)
                /\ re_search RE_SUPREME_CHAPTER text = Ok (Some sm)).
Proof.
  unfold find_next_task. intros H.
  apply find_next_task_from_stops in H as (Hle & text & Ht & Hstop).
  rewrite lookup_drop in Ht. replace (i + (j - i))%nat with j in Ht by lia.
  split; [|eauto]. split; [exact Hle|]. eapply lookup_lt_Some. exact Ht.
Qed.

(** ** Further properties: the cursor of the main loop *)

Lemma find_next_task_index data tasks i ref par j tasks' :
  find_next_task data tasks i ref par = Ok (j, tasks') ->
  (i <= j < length data)%nat.
Proof.
  unfold find_next_task. intros H.
  apply find_next_task_from_stops in H as (Hle & text & Ht & _).
  rewrite lookup_drop in Ht. replace (i + (j - i))%nat with j in Ht by lia.
  split; [exact Hle|]. eapply lookup_lt_Some. exact Ht.
Qed.

Lemma parser_step_bound data st text st' :
  data !! index st = Some text ->
  parser_step data st text = Ok (Continue st') ->
  (index st < index st' <= length data)%nat.
Proof.
  intros Ht H. apply lookup_lt_Some in Ht.
  unfold parser_step in H. inv_ok; simplify_eq; cbn [index].
  all: repeat match goal with
       | H : find_next_task _ _ _ _ _ = Ok _ |- _ =>
           apply find_next_task_index in H
       | H : find_next_chapter _ _ = Ok _ |- _ =>
           apply find_next_chapter_index in H as [? (? & H & _)];
           apply lookup_lt_Some in H
       end.
  all: simplify_eq; lia.
Qed.

Lemma reaches_bound data st :
  reaches data initial st -> (index st <= length data)%nat.
Proof.
  intros H. induction H as [|text st1 st2 _ _ Ht Hs]; [simpl; lia|].
  pose proof (parser_step_bound _ _ _ _ Ht Hs). lia.
Qed.

(** Every turn of the main loop that goes on moves the cursor forward,
    and never beyond the end of the stream; so the loop ends: [parser]
    returns or raises on every document. *)
Theorem parser_cursor_advances doc :
  (forall st text st',
     map strip doc !! index st = Some text ->
     parser_step (map strip doc) st text = Ok (Continue st') ->
     (index st < index st' <= length (map strip doc))%nat)
  /\ (forall st, reaches (map strip doc) initial st ->
                 (index st <= length (map strip doc))%nat)
  /\ exists r, parser doc = Some r.
Proof.
  split; [apply parser_step_bound|]. split; [apply reaches_bound|].
  apply parser_total.
Qed.

(** When the cursor of the main loop stands on the last paragraph of the
    stream and that paragraph matches the task pattern and not the
    sub-chapter pattern, [parser] raises: the look-ahead of
    [find_next_task] reads behind the end of the stream.  A document
    cannot end with a task. *)
Theorem parser_fails_on_final_task doc st text tm :
  reaches (map strip doc) initial st ->
  map strip doc !! index st = Some text ->
  length (map strip doc) = S (index st) ->
  re_search RE_TASK text = Ok (Some tm) ->
  re_search RE_CHAPTER text = Ok None ->
  exists e, parser doc = Some (Raise e).
Proof.
  intros Hr Ht Hlen Htm Hc.
  destruct (parser_step (map strip doc) st text) as [[st'|answers]|e] eqn:Hs.
  - exfalso. unfold parser_step in Hs. rewrite Htm, Hc in Hs.
    inv_ok; simplify_eq.
    all: match goal with
         | H : find_next_task _ _ _ _ _ = Ok _ |- _ =>
             apply find_next_task_index in H; lia
         | E : _ && bool_decide (Some _ = None) = true |- _ =>
             rewrite bool_decide_eq_false_2 in E by discriminate;
             rewrite andb_false_r in E; discriminate E
         end.
  - exfalso. unfold parser_step in Hs. rewrite Htm, Hc in Hs.
    inv_ok; simplify_eq.
  - exists e. apply parser_of_loop_error.
    apply (parser_loop_from_reached _ st 1 _ Hr).
    simpl. rewrite Ht, Hs. reflexivity.
Qed.

(** ** Further properties: the lists only grow *)

(** Between two moments of a run the chapter list and the task list
    only grow at the end: records are appended, never removed, changed or
    reordered. *)
Theorem parser_lists_append_only data st st' :
  reaches data st st' ->
  exists cs ts,
    chapters_data st' = chapters_data st ++ cs
    /\ tasks_data st' = tasks_data st ++ ts.
Proof.
  intros H. induction H as [|text st1 st2 _ (cs & ts & Hc & Ht) _ Hs].
  - exists [], []. rewrite !app_nil_r. split; reflexivity.
  - apply parser_step_kind in Hs as [_ Hk].
    destruct Hk as [cs' _ Hch Hts _ _ _ _|lc new Hch _ _ _ Hts _ _].
    + exists (cs ++ cs'), ts. rewrite Hch, Hts, Hc, Ht, app_assoc.
      split; reflexivity.
    + exists cs, (ts ++ new). rewrite Hch, Hts, Hc, Ht, app_assoc.
      split; reflexivity.
Qed.

(** ** Further properties: the chapter tree *)

Lemma top_level_app chapters cs i :
  top_level chapters i -> top_level (chapters ++ cs) i.
Proof.
  intros (p & Hp & Hi & H0). exists p.
  split; [apply elem_of_app; left; exact Hp|]. split; assumption.
Qed.

Lemma top_level_snoc chapters c :
  chapter_parent c = 0 -> top_level (chapters ++ [c]) (chapter_id c).
Proof.
  intros H. exists c. split; [|split; [reflexivity|exact H]].
  apply elem_of_app. right. apply list_elem_of_singleton. reflexivity.
Qed.

Lemma two_level_snoc chapters c :
  two_level chapters ->
  chapter_parent c = 0 \/ top_level chapters (chapter_parent c) ->
  two_level (chapters ++ [c]).
Proof.
  intros H Hc x Hx. apply elem_of_app in Hx as [Hx|Hx].
  - destruct (H x Hx) as [H0|Ht]; [left; exact H0|].
    right. apply top_level_app. exact Ht.
  - apply list_elem_of_singleton in Hx as ->.
    destruct Hc as [H0|Ht]; [left; exact H0|].
    right. apply top_level_app. exact Ht.
Qed.

Lemma top_level_snoc_id chapters c i :
  chapter_id c = i -> chapter_parent c = 0 -> top_level (chapters ++ [c]) i.
Proof. intros <- H. apply top_level_snoc. exact H. Qed.

Lemma parser_step_two_level data st text st' :
  two_level_state st ->
  parser_step data st text = Ok (Continue st') ->
  two_level_state st'.
Proof.
  intros [Htl Hsup] H. unfold parser_step in H.
  inv_ok; simplify_eq; unfold two_level_state;
    cbn [chapters_data supreme_chapter_id].
  all: repeat match goal with
       | H : get_chapter_data _ _ _ = Ok _ |- _ =>
           apply get_chapter_data_fields in H as [? ?]
       end.
  all: destruct Hsup as [Hsup|Hsup].
  all: split.
  all: repeat match goal with
       | |- two_level (_ ++ [_]) => apply two_level_snoc
       | |- two_level (chapters_data _) => assumption
       | H : chapter_parent ?c = _ |- context [chapter_parent ?c] =>
           rewrite H
       end.
  all: eauto using top_level_app, top_level_snoc_id.
Qed.

Lemma reaches_two_level data st :
  reaches data initial st -> two_level_state st.
Proof.
  intros H. induction H as [|text st1 st2 _ IH _ Hs].
  - split; [|left; reflexivity]. intros c Hc.
    apply elem_of_nil in Hc. contradiction.
  - eapply parser_step_two_level; eassumption.
Qed.

(** The chapters that [parser] returns form a tree of depth two: a
    record has no parent, or its parent is the id of a returned record
    that has no parent itself. *)
Theorem parser_chapters_two_level doc tasks chapters authors :
  parser doc = Some (Ok (tasks, chapters, authors)) ->
  two_level chapters.
Proof.
  intros Hp. destruct (parser_result _ _ _ _ Hp) as (st & Hr & _ & ->).
  apply (reaches_two_level _ _ Hr).
Qed.

(** ** Further properties: tasks follow their chapters *)

Lemma last_chapter_id chapters lc :
  chapters_wf chapters -> last chapters = Some lc ->
  chapter_id lc = Z.of_nat (length chapters) /\ (0 < length chapters)%nat.
Proof.
  intros Hwf Hl. rewrite last_lookup in Hl.
  pose proof (lookup_lt_Some _ _ _ Hl) as Hlt.
  destruct (Hwf _ _ Hl) as [Hid _]. split; [|lia]. rewrite Hid. lia.
Qed.

Lemma turn_kind_ordered text st st' :
  state_inv st ->
  paragraphs_ordered (tasks_data st) (length (chapters_data st)) ->
  turn_kind text st st' ->
  paragraphs_ordered (tasks_data st') (length (chapters_data st')).
Proof.
  intros (Hwf & _) [Hb Ho] [cs _ Hch Hts _ _ _ _|lc new Hch _ _ Hl Hts _ Hnew].
  - rewrite Hch, Hts, length_app. split; [|exact Ho].
    intros t Ht. specialize (Hb t Ht). lia.
  - destruct (last_chapter_id _ _ Hwf Hl) as [Hid Hpos].
    rewrite Forall_forall in Hnew. rewrite Hch, Hts. split.
    + intros t Ht. apply elem_of_app in Ht as [Ht|Ht]; [apply Hb; exact Ht|].
      rewrite (Hnew t Ht), Hid. lia.
    + intros i j ti tj Hij Hi Hj.
      apply lookup_app_Some in Hj as [Hj|[Hlen Hj]].
      * rewrite lookup_app_l in Hi by (apply lookup_lt_Some in Hj; lia).
        eapply Ho; eassumption.
      * rewrite (Hnew tj (list_elem_of_lookup_2 _ _ _ Hj)), Hid.
        apply lookup_app_Some in Hi as [Hi|[_ Hi]].
        -- apply (Hb ti (list_elem_of_lookup_2 _ _ _ Hi)).
        -- rewrite (Hnew ti (list_elem_of_lookup_2 _ _ _ Hi)), Hid. lia.
Qed.

Lemma reaches_ordered data st :
  reaches data initial st ->
  paragraphs_ordered (tasks_data st) (length (chapters_data st)).
Proof.
  intros H. induction H as [|text st1 st2 Hr IH _ Hs].
  - split.
    + intros t Ht. apply elem_of_nil in Ht. contradiction.
    + intros i j ti tj _ Hi. discriminate Hi.
  - apply parser_step_kind in Hs as [_ Hk].
    eapply turn_kind_ordered; [|exact IH|exact Hk].
    apply (reaches_inv _ _ _ state_inv_initial Hr).
Qed.

Lemma same_tasks_ordered l l' n :
  same_tasks l l' -> paragraphs_ordered l n -> paragraphs_ordered l' n.
Proof.
  intros Hs [Hb Ho].
  assert (Hback : forall i t', l' !! i = Some t' ->
            exists t, l !! i = Some t /\ paragraph t = paragraph t').
  { intros i t' Hi.
    destruct (same_tasks_lookup _ _ _ _ (same_tasks_sym _ _ Hs) Hi)
      as (t & Ht & Htt).
    exists t. split; [exact Ht|]. symmetry. apply same_task_paragraph.
    exact Htt. }
  split.
  - intros t' Ht'. apply list_elem_of_lookup in Ht' as [i Hi].
    destruct (Hback _ _ Hi) as (t & Ht & <-).
    apply Hb. eapply list_elem_of_lookup_2. exact Ht.
  - intros i j ti tj Hij Hi Hj.
    destruct (Hback _ _ Hi) as (ti0 & Hi0 & <-).
    destruct (Hback _ _ Hj) as (tj0 & Hj0 & <-).
    eapply Ho; eassumption.
Qed.

(** In the task list that [parser] returns, the chapter id of a task is
    the id of one of the returned chapters (between 1 and their number),
    and the chapter ids never decrease along the list: the tasks of a
    chapter stand together, in the order of the chapters. *)
Theorem parser_tasks_follow_chapters doc tasks chapters authors :
  parser doc = Some (Ok (tasks, chapters, authors)) ->
  paragraphs_ordered tasks (length chapters).
Proof.
  intros Hp. destruct (parser_result _ _ _ _ Hp) as (st & Hr & Hs & ->).
  eapply same_tasks_ordered; [exact Hs|]. apply (reaches_ordered _ _ Hr).
Qed.

(** ** Further properties: a document without answers *)

Lemma find_next_task_from_unanswered rest : forall tasks i ref par j tasks',
  unanswered tasks ->
  find_next_task_from rest tasks i ref par = Ok (j, tasks') ->
  unanswered tasks'.
Proof.
  induction rest as [|text rest IH]; intros tasks i ref par j tasks' Hu H;
    [discriminate|].
  cbn [find_next_task_from] in H. inv_ok; simplify_eq; try exact Hu.
  eapply IH; [|eassumption]. apply Forall_app. split; [exact Hu|].
  constructor; [|constructor].
  eapply get_task_data_paragraph. eassumption.
Qed.

Lemma parser_step_unanswered data st text st' :
  unanswered (tasks_data st) ->
  parser_step data st text = Ok (Continue st') ->
  unanswered (tasks_data st').
Proof.
  intros Hu H. unfold parser_step, find_next_task in H.
  inv_ok; simplify_eq; cbn [tasks_data]; try exact Hu.
  all: try (eapply find_next_task_from_unanswered; [|eassumption]).
  all: apply Forall_app; (split; [exact Hu|]);
       (constructor; [|constructor]);
       eapply get_task_data_paragraph; eassumption.
Qed.

Lemma reaches_unanswered data st :
  reaches data initial st -> unanswered (tasks_data st).
Proof.
  intros H. induction H as [|text st1 st2 _ IH _ Hs]; [constructor|].
  eapply parser_step_unanswered; eassumption.
Qed.

(** When the main loop has collected no answer paragraph (the document
    has no answers section, or an empty one), [parser] does not run the
    reconciler: it returns the tasks as they were found, and none of them
    has an ['answer']. *)
Theorem parser_without_answers doc tasks chapters :
  parser_loop (S (length (map strip doc))) (map strip doc) initial
  = Some (Ok (tasks, chapters, [])) ->
  parser doc = Some (Ok (tasks, chapters, authors_data))
  /\ unanswered tasks.
Proof.
  intros H. split.
  - unfold parser. rewrite H. reflexivity.
  - destruct (parser_loop_result _ _ _ _ _ _ H) as (st & Hr & -> & _).
    apply (reaches_unanswered _ _ Hr).
Qed.

(** ** Further properties: what the reconciler touches *)

(** [answer_parser] changes nothing but answers: the list it returns has
    the length of the list it was given, and at every position the task
    has the same id, text, chapter, classes, topic and level. *)
Theorem answer_parser_changes_answers_only data l l' :
  answer_parser data l = Some (Ok l') ->
  length l' = length l
  /\ forall i t', l' !! i = Some t' ->
       exists t, l !! i = Some t
         /\ id_tasks_book t' = id_tasks_book t /\ task t' = task t
         /\ paragraph t' = paragraph t /\ classes t' = classes t
         /\ topic_id t' = topic_id t /\ level t' = level t.
Proof.
  intros H. apply answer_loop_same_tasks in H.
  split; [symmetry; apply same_tasks_length; exact H|].
  intros i t' Hi.
  destruct (same_tasks_lookup _ _ _ _ (same_tasks_sym _ _ H) Hi)
    as (t & Ht & Htt).
  exists t. split; [exact Ht|]. unfold same_task in Htt.
  injection Htt as H1 H2 H3 H4 H5 H6. repeat split; congruence.
Qed.

(** The reconciler never comes back to a task: from the moment the
    cursor stands at [i], the tasks before [i] stay as they are until the
    run ends. *)
Theorem answer_loop_keeps_passed_tasks text fuel : forall i c l l',
  answer_loop fuel text i c l = Some (Ok l') ->
  forall j, (j < i)%nat -> l' !! j = l !! j.
Proof.
  induction fuel as [|fuel IH]; intros i c l l' H j Hj; [discriminate|].
  simpl in H. destruct (l !! i) as [t|] eqn:Et.
  - destruct (answer_step text i c l t) as [[[i1 c1] l1]|e] eqn:Es;
      simpl in H; [|discriminate].
    pose proof (answer_step_facts _ _ _ _ _ _ _ _ Es) as [Hi _].
    rewrite (IH _ _ _ _ H j) by lia.
    eapply answer_step_behind; eassumption.
  - injection H as <-. reflexivity.
Qed.

(** The answers that the tasks already carry have no influence on a run
    of the reconciler: on two lists that differ in the answers only, it
    completes on both or on none, and at every position the two results
    agree or both tasks are as they were. *)
Theorem answer_parser_ignores_old_answers data l k l' :
  same_tasks l k ->
  answer_parser data l = Some (Ok l') ->
  exists k', answer_parser data k = Some (Ok k') /\ agree l k l' k'.
Proof.
  unfold answer_parser. intros Hs H.
  rewrite <- (same_tasks_length _ _ Hs).
  eapply answer_loop_sync; eassumption.
Qed.

(** A book id that the id pattern does not match is no case of a missing
    answer: when the cursor comes to such a task, or looks ahead at it
    from a task without sub-part, the run ends in an AttributeError. *)
Theorem answer_loop_id_without_match text fuel i c l t :
  l !! i = Some t ->
  (re_search RE_TASK_ID (id_tasks_book t) = Ok None ->
   answer_loop (S fuel) text i c l = Some (Raise AttributeError))
  /\ (forall m g1 n t',
        re_search RE_TASK_ID (id_tasks_book t) = Ok (Some m) ->
        group m 1 = Ok g1 -> truthy g1 = false ->
        py_int (m_group0 m) = Ok n ->
        l !! (i + 1)%nat = Some t' ->
        re_search RE_TASK_ID (id_tasks_book t') = Ok None ->
        answer_loop (S fuel) text i c l = Some (Raise AttributeError)).
Proof.
  intros Ht. split.
  - intros Hm. simpl. rewrite Ht. unfold answer_step. rewrite Hm.
    reflexivity.
  - intros m g1 n t' Hm Hg1 Hf Hn Ht' Hm'.
    simpl. rewrite Ht. unfold answer_step.
    rewrite Hm. cbn [bind the_match]. rewrite Hg1. cbn [bind]. rewrite Hf.
    change (group m 0) with (Ok (Some (m_group0 m))).
    cbn [int_group bind]. rewrite Hn. cbn [bind].
    unfold index_list. rewrite Ht'. cbn [bind]. rewrite Hm'. reflexivity.
Qed.

(** When neither the task under the cursor nor the next task has a
    sub-part, one turn gives each of them the text of the block anchored
    at its own whole number (or ABSENT) and moves the cursor behind the
    two; the mark becomes the number of the second, whether it is greater
    than the first or not, and no other task changes.  Whenever the run
    returns, the two tasks carry these answers in the list it returns,
    and when they are the last two tasks the run returns after this
    turn. *)
Theorem answer_loop_two_whole_numbers
    text i c l t t' m g1 n nm k a a' :
  l !! i = Some t ->
  l !! (i + 1)%nat = Some t' ->
  re_search RE_TASK_ID (id_tasks_book t) = Ok (Some m) ->
  group m 1 = Ok g1 ->
  truthy g1 = false ->
  py_int (m_group0 m) = Ok n ->
  re_search RE_TASK_ID (id_tasks_book t') = Ok (Some nm) ->
  group nm 1 = Ok None ->
  py_int (m_group0 nm) = Ok k ->
  get_answer_text n text = Ok a ->
  get_answer_text k text = Ok a' ->
  let l2 := assign (i + 1) a' (assign i a l) in
  answer_step text i c l t = Ok (S (i + 1), k, l2)
  /\ carries l2 i t a
  /\ carries l2 (i + 1) t' a'
  /\ (forall j, j <> i -> j <> (i + 1)%nat -> l2 !! j = l !! j)
  /\ (forall fuel,
        answer_loop (S fuel) text i c l
        = answer_loop fuel text (i + 2) k l2)
  /\ (forall fuel, (length l - i < fuel)%nat ->
        exists r, answer_loop fuel text i c l = Some r
          /\ forall l', r = Ok l' ->
               carries l' i t a /\ carries l' (i + 1) t' a')
  /\ (length l = (i + 2)%nat ->
      forall fuel, answer_loop (S (S fuel)) text i c l = Some (Ok l2)).
Proof.
  intros Ht Ht' Hm Hg1 Hf Hn Hnm Hng1 Hk Ha Ha' l2.
  assert (Hstep : answer_step text i c l t = Ok (S (i + 1), k, l2)).
  { unfold answer_step.
    rewrite Hm. cbn [bind the_match]. rewrite Hg1. cbn [bind]. rewrite Hf.
    change (group m 0) with (Ok (Some (m_group0 m))).
    cbn [int_group bind]. rewrite Hn. cbn [bind].
    unfold index_list. rewrite Ht'. cbn [bind]. rewrite Hnm.
    cbn [bind the_match]. rewrite Hng1. cbn [bind]. rewrite Ha.
    cbn [bind].
    change (group nm 0) with (Ok (Some (m_group0 nm))).
    cbn [int_group bind]. rewrite Hk. cbn [bind]. rewrite Ha'.
    reflexivity. }
  assert (Hloop : forall fuel,
     answer_loop (1 + fuel) text i c l
     = answer_loop fuel text (i + 2) k l2).
  { intros fuel. change (1 + fuel)%nat with (S fuel).
    rewrite (answer_loop_turn _ _ _ _ _ _ _ _ _ Ht Hstep).
    replace (S (i + 1)) with (i + 2)%nat by lia. reflexivity. }
  destruct (pair_outcome text i c k l t t' a a' 1 Ht Ht'
              (le_S 1 1 (le_n 1)) Hloop) as [Hres Hend].
  destruct (carries_pair i a a' l t t' Ht Ht') as [Hc Hc'].
  split; [exact Hstep|]. split; [exact Hc|]. split; [exact Hc'|].
  split.
  { intros j Hi Hi'. unfold l2. rewrite !assign_lookup_ne by lia.
    reflexivity. }
  split; [exact Hloop|]. split; [exact Hres|].
  intros Hlen fuel. apply (Hend Hlen fuel).
Qed.

Lemma answer_step_bound text i c l t i1 c1 l1 :
  l !! i = Some t ->
  answer_step text i c l t = Ok (i1, c1, l1) ->
  (i < i1 <= i + 2)%nat /\ (i1 <= length l)%nat /\ length l1 = length l.
Proof.
  intros Ht H. pose proof (answer_step_facts _ _ _ _ _ _ _ _ H) as [Hi Hs].
  split; [exact Hi|]. split; [|symmetry; apply same_tasks_length; exact Hs].
  apply lookup_lt_Some in Ht. unfold answer_step, index_list in H.
  inv_ok; simplify_eq; try lia.
  all: repeat match goal with
       | E : _ !! _ = Some _ |- _ => apply lookup_lt_Some in E
       end; lia.
Qed.

(** Every turn of the reconciler moves the cursor forward by one or two
    tasks, never beyond the end of the list, and keeps the length of the
    list; so the loop ends: [answer_parser] returns or raises on every
    input. *)
Theorem answer_parser_cursor_advances :
  (forall text i c l t i1 c1 l1,
     l !! i = Some t ->
     answer_step text i c l t = Ok (i1, c1, l1) ->
     (i < i1 <= i + 2)%nat /\ (i1 <= length l)%nat
     /\ length l1 = length l)
  /\ (forall data l, exists r, answer_parser data l = Some r).
Proof. split; [apply answer_step_bound|apply answer_parser_total]. Qed.

(** ** Further properties: the task that opens a run *)

(** A task that opens a run at the top level and has no leading number
    (group 1 is None, group 4 is not empty) is numbered after the last
    task found before it: its id is the id of that task, with a ['.']
    appended unless it ends in one, followed by group 4, without the last
    character. *)
Theorem opening_task_without_number data st text tm g4 st' :
  re_search RE_TASK text = Ok (Some tm) ->
  group tm 1 = Ok None ->
  group tm 4 = Ok g4 ->
  truthy g4 = true ->
  parser_step data st text = Ok (Continue st') ->
  chapters_data st' = chapters_data st ->
  exists before t0 suffix,
    last (tasks_data st) = Some before
    /\ g4 = Some suffix
    /\ tasks_data st' !! length (tasks_data st) = Some t0
    /\ id_tasks_book t0
       = continuation_id (id_tasks_book before) suffix.
Proof.
  intros Hm Hg1 Hg4 Htr H Hch. unfold parser_step in H. rewrite Hm in H.
  inv_ok; simplify_eq; cbn [chapters_data tasks_data] in *.
  all: try (exfalso; apply (f_equal length) in Hch;
            rewrite ?length_app in Hch; simpl in Hch; lia).
  all: match goal with
       | H : find_next_task _ _ _ _ _ = Ok _ |- _ =>
           apply find_next_task_appends in H as (new & -> & _)
       end.
  all: match goal with
       | H : previous_id_of _ _ = Ok _ |- _ =>
           unfold previous_id_of in H; rewrite Hg4 in H; cbn [bind] in H;
           rewrite Htr in H; inv_ok; simplify_eq
       end.
  all: repeat match goal with
       | H : last_item _ = Ok _ |- _ => apply last_item_Ok in H
       end.
  all: match goal with
       | H : get_task_data ?m _ _ false = Ok _, G : group ?m 1 = Ok None
         |- _ =>
           destruct (get_task_data_implicit _ _ _ _ G H)
             as (previous & suffix & Hp & Hs & Hid)
       end.
  all: simplify_eq.
  all: match goal with
       | H : id_tasks_book ?t0 = continuation_id (id_tasks_book ?b) ?g |- _ =>
           exists b, t0, g
       end.
  all: (split; [assumption|]); (split; [congruence|]); split;
       [rewrite <- app_assoc; rewrite lookup_app_r by lia;
        rewrite Nat.sub_diag; reflexivity
       |exact Hid].
Qed.

End Pareser.

(** ** The program on the concrete document *)

Abbreviation demo_search := (Demo.search_in Demo.book).
Abbreviation demo_parser :=
  (parser Demo.RE_ANSWER_TEXT Demo.RE_CHAPTER Demo.RE_PART_ANSWER
     Demo.RE_SUPREME_CHAPTER Demo.RE_TASK Demo.RE_TASK_ID Demo.ABSENT
     demo_search Demo.int_literal Demo.lower).
Abbreviation demo_answer_parser :=
  (answer_parser Demo.RE_ANSWER_TEXT Demo.RE_PART_ANSWER Demo.RE_TASK_ID
     Demo.ABSENT demo_search Demo.int_literal).
Abbreviation scenario_answer_parser :=
  (answer_parser Demo.RE_ANSWER_TEXT Demo.RE_PART_ANSWER Demo.RE_TASK_ID
     Demo.ABSENT Scenario.search Demo.int_literal).
Abbreviation demo_answer_loop :=
  (answer_loop Demo.RE_ANSWER_TEXT Demo.RE_PART_ANSWER Demo.RE_TASK_ID
     Demo.ABSENT demo_search Demo.int_literal).
Abbreviation demo_answered :=
  (answered Demo.RE_ANSWER_TEXT Demo.RE_PART_ANSWER Demo.ABSENT demo_search).
Abbreviation demo_reaches :=
  (reaches Demo.RE_CHAPTER Demo.RE_SUPREME_CHAPTER Demo.RE_TASK demo_search
     Demo.int_literal Demo.lower).
Abbreviation demo_parser_step :=
  (parser_step Demo.RE_CHAPTER Demo.RE_SUPREME_CHAPTER Demo.RE_TASK
     demo_search Demo.int_literal Demo.lower).
Abbreviation demo_parser_loop :=
  (parser_loop Demo.RE_CHAPTER Demo.RE_SUPREME_CHAPTER Demo.RE_TASK
     demo_search Demo.int_literal Demo.lower).
Abbreviation demo_heading :=
  (heading Demo.RE_CHAPTER Demo.RE_SUPREME_CHAPTER demo_search).

(** The whole run: two chapters, four tasks, and their answers. *)
Example demo_run :
  exists tasks chapters,
    demo_parser Demo.doc = Some (Ok (tasks, chapters, authors_data))
    /\ map id_tasks_book tasks
       = [u "14.а"; u "14.б"; u "14.в"; u "15"; u "16"]
    /\ map answer tasks
       = [Some (VStr (u "5")); Some (VStr (u "7")); Some Demo.ABSENT;
          Some (VStr (u "42 см")); Some Demo.ABSENT]
    /\ map paragraph tasks = [2; 2; 2; 2; 2]
    /\ map chapter_id chapters = [1; 2]
    /\ map chapter_parent chapters = [0; 1].
Proof.
  eexists. eexists. split; [vm_compute; reflexivity|].
  repeat split.
Qed.

(** *** The reconciler *)

(** C1 fails as stated: the whole number 3 of the second task is below
    the mark 14 that the first task left; the run completes and the
    second task has no ['answer']. *)
Lemma answer_parser_leaves_task_unanswered :
  exists t1 t2,
    demo_answer_parser Demo.answers [Demo.a_task "14а"; Demo.a_task "3а"]
    = Some (Ok [t1; t2])
    /\ answer t1 = Some (VStr (u "5")) /\ answer t2 = None.
Proof.
  eexists. eexists. split; [vm_compute; reflexivity|]. split; reflexivity.
Qed.

Lemma answer_parser_assigns_every_task_witness :
  exists tasks',
    demo_answer_parser Demo.answers Demo.tasks = Some (Ok tasks')
    /\ Forall (demo_answered (join_lines Demo.answers)) tasks'.
Proof.
  eexists. split; [vm_compute; reflexivity|].
  refine (proj1 (answer_parser_assigns_every_task
                   Demo.RE_ANSWER_TEXT Demo.RE_PART_ANSWER Demo.RE_TASK_ID
                   Demo.ABSENT demo_search Demo.int_literal
                   Demo.answers Demo.tasks _ _ _)).
  - vm_compute. reflexivity.
  - vm_compute. reflexivity.
Defined.

(** Scenario 4 of the specification under the searches of [Demo.book]. *)
Example demo_scenario_4 :
  exists tasks',
    demo_answer_parser Demo.answers
      [Demo.a_task "14"; Demo.a_task "14а"; Demo.a_task "14б"]
    = Some (Ok tasks')
    /\ map answer tasks'
       = [Some Demo.ABSENT; Some (VStr (u "5")); Some (VStr (u "7"))].
Proof. eexists. split; [vm_compute; reflexivity|]. reflexivity. Qed.

(** The values that the code looks up under the patterns of [Scenario]:
    the parts of the block of 14 (scenario 4), the block of 12 and the
    missing block of 13 (scenario 3), and the groups of a dotted id. *)
Example scenario_lookups :
  let part id :=
    m <- Scenario.search Demo.RE_TASK_ID (u id);;
    m <- the_match m;;
    sub_part_extraction Demo.RE_ANSWER_TEXT Demo.RE_PART_ANSWER Demo.ABSENT
      Scenario.search 14 m (u "14. а) 5; б) 7") in
  let text n :=
    get_answer_text Demo.RE_ANSWER_TEXT Demo.ABSENT Scenario.search n
      (join_lines [u "11. 3 кг"; u "12. 42 см"; u "14. а) 5; б) 7"]) in
  part "14а"%string = Ok (VStr (u "5"))
  /\ part "14б"%string = Ok (VStr (u "7"))
  /\ part "14в"%string = Ok Demo.ABSENT
  /\ text 12 = Ok (VStr (u "42 см"))
  /\ text 13 = Ok Demo.ABSENT
  /\ Scenario.search Demo.RE_TASK_ID (u "12.3")
     = Ok (Some (Demo.mk "12.3" [Demo.g "12"; Demo.g "3"] 4)).
Proof. vm_compute. repeat split. Qed.

(** Scenario 4 of the specification, computed from the text of the
    answers under the patterns of [Scenario]: the turns on 14 and 14а
    are those of the theorem, and the run returns with ABSENT for 14,
    ["5"] for 14а and ["7"] for 14б. *)
Lemma answer_loop_same_whole_number_witness :
  scenario_answer_parser [u "14. а) 5; б) 7"]
    [Demo.a_task "14"; Demo.a_task "14а"; Demo.a_task "14б"]
  = Some (Ok [set_answer Demo.ABSENT (Demo.a_task "14");
              set_answer (VStr (u "5")) (Demo.a_task "14а");
              set_answer (VStr (u "7")) (Demo.a_task "14б")]).
Proof.
  destruct (answer_loop_same_whole_number
              Demo.RE_ANSWER_TEXT Demo.RE_PART_ANSWER Demo.RE_TASK_ID
              Demo.ABSENT Scenario.search Demo.int_literal
              (u "14. а) 5; б) 7") 0%nat 0
              [Demo.a_task "14"; Demo.a_task "14а"; Demo.a_task "14б"]
              (Demo.a_task "14") (Demo.a_task "14а")
              (Demo.mk "14" [Demo.no; Demo.no] 2) Demo.no 14
              (Demo.mk "14а" [Demo.g "14"; Demo.g "а"] 3) (u "14")
              (VStr (u "5")))
    as (_ & _ & _ & _ & Hloop & _).
  - reflexivity.
  - reflexivity.
  - vm_compute. reflexivity.
  - reflexivity.
  - reflexivity.
  - vm_compute. reflexivity.
  - vm_compute. reflexivity.
  - reflexivity.
  - vm_compute. reflexivity.
  - vm_compute. reflexivity.
  - unfold answer_parser. cbn [length join_lines].
    rewrite (Hloop 2%nat). vm_compute. reflexivity.
Defined.

Lemma answer_parser_idempotent_witness :
  exists tasks',
    demo_answer_parser Demo.answers Demo.tasks = Some (Ok tasks')
    /\ demo_answer_parser Demo.answers tasks' = Some (Ok tasks').
Proof.
  eexists. split; [vm_compute; reflexivity|].
  apply (answer_parser_idempotent _ _ _ _ _ _ Demo.answers Demo.tasks).
  vm_compute. reflexivity.
Defined.

(** C9 fails as stated: the last task 13 has no sub-part, and the run
    completes, because 13 is reconciled as the look-ahead of 12. *)
Lemma answer_parser_completes_on_final_task_without_part :
  exists t1 t2,
    demo_search Demo.RE_TASK_ID (u "13")
    = Ok (Some (Demo.mk "13" [Demo.no; Demo.no] 2))
    /\ demo_answer_parser [u "12. 42 см"] [Demo.a_task "12"; Demo.a_task "13"]
       = Some (Ok [t1; t2])
    /\ answer t1 = Some (VStr (u "42 см"))
    /\ answer t2 = Some Demo.ABSENT.
Proof.
  eexists. eexists. split; [vm_compute; reflexivity|].
  split; [vm_compute; reflexivity|]. split; reflexivity.
Qed.

Lemma answer_loop_last_task_without_part_witness :
  demo_answer_parser Demo.answers [Demo.a_task "15"]
  = Some (Raise IndexError_list).
Proof.
  unfold answer_parser.
  eapply answer_loop_last_task_without_part.
  - reflexivity.
  - reflexivity.
  - vm_compute. reflexivity.
  - reflexivity.
  - reflexivity.
  - vm_compute. reflexivity.
Defined.

(** *** The parser *)

Lemma get_task_data_strips_last_character_witness :
  let t := task_record 2 (u "14.а") (Some (u " Сколько?")) in
  exists s,
    assembled_id Demo.task_14a (Some (u "14.")) false = Ok s
    /\ id_tasks_book t = drop_last s
    /\ (forall c, last s = Some c -> s = id_tasks_book t ++ [c]).
Proof.
  intros t.
  apply (get_task_data_strips_last_character Demo.task_14a 2
           (Some (u "14.")) false t).
  reflexivity.
Defined.

(** C2 fails as stated: the second and third task paragraphs of
    [Demo.doc] are continuations with empty group 1 and the suffixes
    ["б)"] and ["в)"].  The claim builds their ids from the ids of the
    tasks before them, ["14.а"] and ["14.б"], which gives ["14.а.б"] and
    ["14.б.в"]; the parser builds both from the reference ["14."] and
    gives ["14.б"] and ["14.в"]. *)
Lemma continuation_id_is_not_built_from_previous_task :
  exists t1 t2 t3 rest chapters authors,
    demo_search Demo.RE_TASK (u "б) Столько?") = Ok (Some Demo.task_b)
    /\ demo_search Demo.RE_TASK (u "в) Почему?") = Ok (Some Demo.task_v)
    /\ group Demo.task_b 1 = Ok None
    /\ group Demo.task_b 4 = Ok (Some (u "б)"))
    /\ group Demo.task_v 1 = Ok None
    /\ group Demo.task_v 4 = Ok (Some (u "в)"))
    /\ demo_parser Demo.doc
       = Some (Ok (t1 :: t2 :: t3 :: rest, chapters, authors))
    /\ id_tasks_book t1 = u "14.а"
    /\ id_tasks_book t2 = u "14.б"
    /\ id_tasks_book t3 = u "14.в"
    /\ continuation_id (id_tasks_book t1) (u "б)") = u "14.а.б"
    /\ continuation_id (id_tasks_book t2) (u "в)") = u "14.б.в".
Proof.
  do 6 eexists. split; [vm_compute; reflexivity|].
  split; [vm_compute; reflexivity|].
  do 4 (split; [reflexivity|]).
  split; [vm_compute; reflexivity|]. repeat split.
Qed.

Lemma continuation_ids_witness :
  let data := map strip Demo.doc in
  exists st st',
    demo_parser_step data initial (u "1. Натуральные числа")
    = Ok (Continue st)
    /\ demo_parser_step data st (u "14. а) Сколько?") = Ok (Continue st')
    /\ exists ref t0 new,
         run_reference Demo.RE_SUPREME_CHAPTER demo_search st
           (u "14. а) Сколько?") Demo.task_14a = Ok ref
         /\ (forall g4, group Demo.task_14a 4 = Ok g4 ->
                        truthy g4 = false ->
                        group Demo.task_14a 1 = Ok ref)
         /\ tasks_data st' = tasks_data st ++ t0 :: new
         /\ index st' = (index st + 1 + length new)%nat
         /\ forall k t,
              new !! k = Some t ->
              implicit_run Demo.RE_TASK demo_search
                (drop (index st + 1) data) k ->
              exists previous text' m g4,
                ref = Some previous
                /\ drop (index st + 1) data !! k = Some text'
                /\ demo_search Demo.RE_TASK text' = Ok (Some m)
                /\ group m 4 = Ok (Some g4)
                /\ id_tasks_book t = continuation_id previous g4
                /\ paragraph t = paragraph t0.
Proof.
  intros data. eexists. eexists.
  split; [vm_compute; reflexivity|].
  split; [vm_compute; reflexivity|].
  eapply (continuation_ids Demo.RE_CHAPTER Demo.RE_SUPREME_CHAPTER
            Demo.RE_TASK demo_search Demo.int_literal Demo.lower data).
  - vm_compute. reflexivity.
  - vm_compute. reflexivity.
  - reflexivity.
Defined.

Lemma parser_unrecognised_paragraph_witness :
  demo_parser Demo.doc_unrecognised
  = Some (Raise (ValueError (u "index:2    Просто текст"))).
Proof.
  refine (parser_unrecognised_paragraph
            Demo.RE_ANSWER_TEXT Demo.RE_CHAPTER Demo.RE_PART_ANSWER
            Demo.RE_SUPREME_CHAPTER Demo.RE_TASK Demo.RE_TASK_ID Demo.ABSENT
            demo_search Demo.int_literal Demo.lower
            Demo.doc_unrecognised
            {| index := 2; current_chapter := 1; supreme_chapter_id := 1;
               current_id := 3;
               chapters_data :=
                 [ {| chapter_id := 1;
                      chapter_name := u "1. Натуральные числа";
                      chapter_parent := 0 |};
                   {| chapter_id := 2;
                      chapter_name := u "1.1. Сложение";
                      chapter_parent := 1 |} ];
               tasks_data := [] |}
            (u "Просто текст") _ _ _).
  - eapply reaches_turn; [apply reaches_here| |].
    + reflexivity.
    + vm_compute. reflexivity.
  - reflexivity.
  - repeat split; try (vm_compute; reflexivity).
    intros H. vm_compute in H. discriminate H.
Defined.

Lemma parser_answers_section_witness :
  let data := map strip Demo.doc in
  exists st answers tail,
    demo_reaches data initial st
    /\ index st = 7%nat
    /\ demo_parser_loop (S (length data)) data initial
       = Some (Ok (tasks_data st, chapters_data st, answers))
    /\ drop (index st + 1) data = answers ++ tail
    /\ Forall (fun x => ~ is_contents Demo.lower x) answers
    /\ (tail = [] \/ exists b tl, tail = b :: tl /\ is_contents Demo.lower b).
Proof.
  intros data.
  assert (Hr : exists st, demo_reaches data initial st /\ index st = 7%nat).
  { eexists. split.
    - eapply reaches_turn; [eapply reaches_turn; [apply reaches_here| |]| |].
      + reflexivity.
      + vm_compute. reflexivity.
      + reflexivity.
      + vm_compute. reflexivity.
    - reflexivity. }
  destruct Hr as (st & Hr & Hi). exists st.
  destruct (parser_answers_section
              Demo.RE_CHAPTER Demo.RE_SUPREME_CHAPTER Demo.RE_TASK
              demo_search Demo.int_literal Demo.lower Demo.doc st Hr)
    as (answers & tail & H);
    [rewrite Hi; reflexivity
    |vm_compute; reflexivity|vm_compute; reflexivity|vm_compute; reflexivity
    |].
  exists answers, tail. split; [exact Hr|]. split; [exact Hi|]. exact H.
Defined.

Lemma parser_chapters_wf_witness :
  exists tasks chapters authors,
    demo_parser Demo.doc = Some (Ok (tasks, chapters, authors))
    /\ chapters_wf chapters.
Proof.
  do 3 eexists. split; [vm_compute; reflexivity|].
  eapply (proj2 (parser_chapters_wf
                   Demo.RE_ANSWER_TEXT Demo.RE_CHAPTER Demo.RE_PART_ANSWER
                   Demo.RE_SUPREME_CHAPTER Demo.RE_TASK Demo.RE_TASK_ID
                   Demo.ABSENT demo_search Demo.int_literal Demo.lower
                   Demo.doc)).
  vm_compute. reflexivity.
Defined.

(** C10 fails as stated: the stream starts with the answers section,
    which is no chapter heading, and the parser returns (with no task
    and no chapter). *)
Lemma parser_completes_without_chapter_heading :
  demo_parser Demo.doc_answers_first = Some (Ok ([], [], authors_data))
  /\ ~ demo_heading (u "Ответы и советы").
Proof.
  split; [vm_compute; reflexivity|].
  intros [[m H]|[m H]]; vm_compute in H; discriminate H.
Qed.

Lemma parser_first_paragraph_witness :
  demo_parser Demo.doc_task_first = Some (Raise IndexError_list)
  /\ exists tasks chapters authors,
       demo_parser Demo.doc = Some (Ok (tasks, chapters, authors))
       /\ tasks_in_chapters tasks chapters
       /\ demo_heading (u "1. Натуральные числа").
Proof.
  split.
  - refine (proj2 (proj1 (parser_first_paragraph
                     Demo.RE_ANSWER_TEXT Demo.RE_CHAPTER Demo.RE_PART_ANSWER
                     Demo.RE_SUPREME_CHAPTER Demo.RE_TASK Demo.RE_TASK_ID
                     Demo.ABSENT demo_search Demo.int_literal Demo.lower
                     Demo.doc_task_first)
                   initial (u "15. Где?") _ _ _ _)).
    + apply reaches_here.
    + reflexivity.
    + reflexivity.
    + left. split; [vm_compute; reflexivity|].
      split; [vm_compute; reflexivity|].
      eexists. split; [vm_compute; reflexivity|]. simpl. lia.
  - do 3 eexists. split; [vm_compute; reflexivity|].
    edestruct (proj2 (parser_first_paragraph
                     Demo.RE_ANSWER_TEXT Demo.RE_CHAPTER Demo.RE_PART_ANSWER
                     Demo.RE_SUPREME_CHAPTER Demo.RE_TASK Demo.RE_TASK_ID
                     Demo.ABSENT demo_search Demo.int_literal Demo.lower
                     Demo.doc)) as [Ht Hh]; [vm_compute; reflexivity|].
    split; [exact Ht|].
    destruct Hh as [[Hn _]|(text0 & rest & Hd & Hh & _)];
      [discriminate Hn|].
    injection Hd as <- _. exact Hh.
Defined.

(** *** The string primitives *)

Example u_literal : u "12. а)" = [49; 50; 46; 32; 1072; 41]%N.
Proof. reflexivity. Qed.

Example str_of_int_samples :
  str_of_int 0 = u "0" /\ str_of_int 14 = u "14" /\ str_of_int (-5) = u "-5".
Proof. repeat split. Qed.

Example strip_sample : strip (u "  14. а) 5 ") = u "14. а) 5".
Proof. reflexivity. Qed.

Example drop_last_samples :
  drop_last (u "14.а)") = u "14.а" /\ drop_last [] = [].
Proof. split; reflexivity. Qed.

Example join_lines_sample :
  join_lines [u "a"; u "b"] = [97; 10; 98]%N /\ join_lines [] = [].
Proof. split; reflexivity. Qed.

(** *** Further properties on the concrete documents *)

Abbreviation demo_get_answer_text :=
  (get_answer_text Demo.RE_ANSWER_TEXT Demo.ABSENT demo_search).
Abbreviation demo_find_next_task :=
  (find_next_task Demo.RE_SUPREME_CHAPTER Demo.RE_TASK demo_search).
Abbreviation demo_clean_answer := (clean_answer Demo.ABSENT).

Lemma looked_up_answers_are_stripped_witness :
  demo_get_answer_text 14 Demo.block = Ok (VStr (u "а) 5; б) 7"))
  /\ demo_clean_answer (VStr (u "а) 5; б) 7")).
Proof.
  split; [vm_compute; reflexivity|].
  apply (proj1 (looked_up_answers_are_stripped
                  Demo.RE_ANSWER_TEXT Demo.RE_PART_ANSWER Demo.ABSENT
                  demo_search) 14 Demo.block).
  vm_compute. reflexivity.
Defined.

Lemma find_next_task_stops_at_paragraph_witness :
  let data := map strip Demo.doc in
  exists tasks',
    demo_find_next_task data [] 3 (Some (u "14.")) 2 = Ok (7%nat, tasks')
    /\ (3 <= 7 < length data)%nat
    /\ exists text, data !! 7%nat = Some text
         /\ (demo_search Demo.RE_TASK text = Ok None
             \/ exists tm sm, demo_search Demo.RE_TASK text = Ok (Some tm)
                  /\ demo_search Demo.RE_SUPREME_CHAPTER text
                     = Ok (Some sm)).
Proof.
  intros data. eexists. split; [vm_compute; reflexivity|].
  eapply (find_next_task_stops_at_paragraph
            Demo.RE_SUPREME_CHAPTER Demo.RE_TASK demo_search data
            [] 3 (Some (u "14.")) 2 7).
  vm_compute. reflexivity.
Defined.

Lemma parser_cursor_advances_witness :
  let data := map strip Demo.doc in
  exists st',
    demo_parser_step data initial (u "1. Натуральные числа")
    = Ok (Continue st')
    /\ (index initial < index st' <= length data)%nat.
Proof.
  intros data. eexists. split; [vm_compute; reflexivity|].
  eapply (proj1 (parser_cursor_advances
                   Demo.RE_ANSWER_TEXT Demo.RE_CHAPTER Demo.RE_PART_ANSWER
                   Demo.RE_SUPREME_CHAPTER Demo.RE_TASK Demo.RE_TASK_ID
                   Demo.ABSENT demo_search Demo.int_literal Demo.lower
                   Demo.doc)).
  - reflexivity.
  - vm_compute. reflexivity.
Defined.

Lemma parser_fails_on_final_task_witness :
  demo_parser Demo.doc_task_last = Some (Raise IndexError_list)
  /\ exists e, demo_parser Demo.doc_task_last = Some (Raise e).
Proof.
  split; [vm_compute; reflexivity|].
  eapply (parser_fails_on_final_task
            Demo.RE_ANSWER_TEXT Demo.RE_CHAPTER Demo.RE_PART_ANSWER
            Demo.RE_SUPREME_CHAPTER Demo.RE_TASK Demo.RE_TASK_ID Demo.ABSENT
            demo_search Demo.int_literal Demo.lower Demo.doc_task_last).
  - eapply reaches_turn; [apply reaches_here| |].
    + reflexivity.
    + vm_compute. reflexivity.
  - reflexivity.
  - reflexivity.
  - vm_compute. reflexivity.
  - vm_compute. reflexivity.
Defined.

Lemma parser_lists_append_only_witness :
  let data := map strip Demo.doc in
  exists st st',
    demo_parser_step data initial (u "1. Натуральные числа")
    = Ok (Continue st)
    /\ demo_parser_step data st (u "14. а) Сколько?") = Ok (Continue st')
    /\ exists cs ts,
         chapters_data st' = chapters_data st ++ cs
         /\ tasks_data st' = tasks_data st ++ ts.
Proof.
  intros data. eexists. eexists.
  split; [vm_compute; reflexivity|].
  split; [vm_compute; reflexivity|].
  eapply (parser_lists_append_only
            Demo.RE_CHAPTER Demo.RE_SUPREME_CHAPTER Demo.RE_TASK demo_search
            Demo.int_literal Demo.lower data).
  eapply reaches_turn; [apply reaches_here| |].
  - reflexivity.
  - vm_compute. reflexivity.
Defined.

Lemma parser_chapters_two_level_witness :
  exists tasks chapters authors,
    demo_parser Demo.doc_no_answers = Some (Ok (tasks, chapters, authors))
    /\ map chapter_parent chapters = [0; 1; 1]
    /\ two_level chapters.
Proof.
  do 3 eexists. split; [vm_compute; reflexivity|].
  split; [reflexivity|].
  eapply (parser_chapters_two_level
            Demo.RE_ANSWER_TEXT Demo.RE_CHAPTER Demo.RE_PART_ANSWER
            Demo.RE_SUPREME_CHAPTER Demo.RE_TASK Demo.RE_TASK_ID Demo.ABSENT
            demo_search Demo.int_literal Demo.lower Demo.doc_no_answers).
  vm_compute. reflexivity.
Defined.

Lemma parser_tasks_follow_chapters_witness :
  exists tasks chapters authors,
    demo_parser Demo.doc = Some (Ok (tasks, chapters, authors))
    /\ paragraphs_ordered tasks (length chapters).
Proof.
  do 3 eexists. split; [vm_compute; reflexivity|].
  eapply (parser_tasks_follow_chapters
            Demo.RE_ANSWER_TEXT Demo.RE_CHAPTER Demo.RE_PART_ANSWER
            Demo.RE_SUPREME_CHAPTER Demo.RE_TASK Demo.RE_TASK_ID Demo.ABSENT
            demo_search Demo.int_literal Demo.lower Demo.doc).
  vm_compute. reflexivity.
Defined.

Lemma parser_without_answers_witness :
  exists tasks chapters,
    demo_parser Demo.doc_no_answers
    = Some (Ok (tasks, chapters, authors_data))
    /\ map id_tasks_book tasks = [u "15"]
    /\ unanswered tasks.
Proof.
  do 2 eexists.
  match goal with
  | |- ?A /\ ?B /\ ?C =>
      cut (A /\ C);
        [intros [Ha Hc]; split; [exact Ha|split; [|exact Hc]]|]
  end.
  2:{ eapply (parser_without_answers
               Demo.RE_ANSWER_TEXT Demo.RE_CHAPTER Demo.RE_PART_ANSWER
               Demo.RE_SUPREME_CHAPTER Demo.RE_TASK Demo.RE_TASK_ID
               Demo.ABSENT demo_search Demo.int_literal Demo.lower
               Demo.doc_no_answers).
      vm_compute. reflexivity. }
  reflexivity.
Defined.

Lemma answer_parser_changes_answers_only_witness :
  exists tasks',
    demo_answer_parser Demo.answers Demo.tasks = Some (Ok tasks')
    /\ length tasks' = length Demo.tasks
    /\ forall i t', tasks' !! i = Some t' ->
         exists t, Demo.tasks !! i = Some t
           /\ id_tasks_book t' = id_tasks_book t /\ task t' = task t
           /\ paragraph t' = paragraph t /\ classes t' = classes t
           /\ topic_id t' = topic_id t /\ level t' = level t.
Proof.
  eexists. split; [vm_compute; reflexivity|].
  apply (answer_parser_changes_answers_only
           Demo.RE_ANSWER_TEXT Demo.RE_PART_ANSWER Demo.RE_TASK_ID
           Demo.ABSENT demo_search Demo.int_literal Demo.answers).
  vm_compute. reflexivity.
Defined.

Lemma answer_loop_keeps_passed_tasks_witness :
  let l := [Demo.a_task "12"; Demo.a_task "12"; Demo.a_task "13"] in
  exists l',
    demo_answer_loop 3 (u "12. 42 см") 1 0 l = Some (Ok l')
    /\ l' !! 0%nat = l !! 0%nat
    /\ map answer l' = [None; Some (VStr (u "42 см")); Some Demo.ABSENT].
Proof.
  intros l. eexists. split; [vm_compute; reflexivity|].
  split; [|reflexivity].
  apply (answer_loop_keeps_passed_tasks
           Demo.RE_ANSWER_TEXT Demo.RE_PART_ANSWER Demo.RE_TASK_ID
           Demo.ABSENT demo_search Demo.int_literal (u "12. 42 см") 3 1 0 l).
  - vm_compute. reflexivity.
  - lia.
Defined.

Lemma answer_parser_ignores_old_answers_witness :
  let k := map (set_answer (VStr (u "?"))) Demo.tasks in
  exists l' k',
    demo_answer_parser Demo.answers Demo.tasks = Some (Ok l')
    /\ demo_answer_parser Demo.answers k = Some (Ok k')
    /\ agree Demo.tasks k l' k'.
Proof.
  intros k.
  edestruct (answer_parser_ignores_old_answers
               Demo.RE_ANSWER_TEXT Demo.RE_PART_ANSWER Demo.RE_TASK_ID
               Demo.ABSENT demo_search Demo.int_literal
               Demo.answers Demo.tasks k) as (k' & Hk & Ha).
  - reflexivity.
  - vm_compute. reflexivity.
  - eexists _, k'. split; [vm_compute; reflexivity|].
    split; [exact Hk|exact Ha].
Defined.

Lemma answer_loop_id_without_match_witness :
  demo_answer_parser Demo.answers [Demo.a_task "XIV"]
  = Some (Raise AttributeError)
  /\ demo_answer_parser Demo.answers [Demo.a_task "14"; Demo.a_task "XIV"]
     = Some (Raise AttributeError).
Proof.
  unfold answer_parser. split.
  - eapply (proj1 (answer_loop_id_without_match
                     Demo.RE_ANSWER_TEXT Demo.RE_PART_ANSWER Demo.RE_TASK_ID
                     Demo.ABSENT demo_search Demo.int_literal
                     (join_lines Demo.answers) 1 0 0
                     [Demo.a_task "XIV"] (Demo.a_task "XIV") eq_refl)).
    vm_compute. reflexivity.
  - eapply (proj2 (answer_loop_id_without_match
                     Demo.RE_ANSWER_TEXT Demo.RE_PART_ANSWER Demo.RE_TASK_ID
                     Demo.ABSENT demo_search Demo.int_literal
                     (join_lines Demo.answers) 2 0 0
                     [Demo.a_task "14"; Demo.a_task "XIV"]
                     (Demo.a_task "14") eq_refl)).
    + vm_compute. reflexivity.
    + reflexivity.
    + reflexivity.
    + vm_compute. reflexivity.
    + reflexivity.
    + vm_compute. reflexivity.
Defined.

(** The tasks 12 and 13 on the answers ["12. 42 см"]: one turn, and the
    run returns with the block of 12 and with ABSENT for 13. *)
Lemma answer_loop_two_whole_numbers_witness :
  demo_answer_parser [u "12. 42 см"] [Demo.a_task "12"; Demo.a_task "13"]
  = Some (Ok [set_answer (VStr (u "42 см")) (Demo.a_task "12");
              set_answer Demo.ABSENT (Demo.a_task "13")]).
Proof.
  destruct (answer_loop_two_whole_numbers
              Demo.RE_ANSWER_TEXT Demo.RE_PART_ANSWER Demo.RE_TASK_ID
              Demo.ABSENT demo_search Demo.int_literal
              (u "12. 42 см") 0%nat 0
              [Demo.a_task "12"; Demo.a_task "13"]
              (Demo.a_task "12") (Demo.a_task "13")
              (Demo.mk "12" [Demo.no; Demo.no] 2) Demo.no 12
              (Demo.mk "13" [Demo.no; Demo.no] 2) 13
              (VStr (u "42 см")) Demo.ABSENT)
    as (_ & _ & _ & _ & _ & _ & Hend).
  - reflexivity.
  - reflexivity.
  - vm_compute. reflexivity.
  - reflexivity.
  - reflexivity.
  - vm_compute. reflexivity.
  - vm_compute. reflexivity.
  - reflexivity.
  - vm_compute. reflexivity.
  - vm_compute. reflexivity.
  - vm_compute. reflexivity.
  - apply (Hend eq_refl 1%nat).
Defined.

Lemma answer_parser_cursor_advances_witness :
  exists l1,
    answer_step Demo.RE_ANSWER_TEXT Demo.RE_PART_ANSWER Demo.RE_TASK_ID
      Demo.ABSENT demo_search Demo.int_literal Demo.block 3 14 Demo.tasks
      (Demo.a_task "15")
    = Ok (5%nat, 16, l1)
    /\ (3 < 5 <= 3 + 2)%nat /\ (5 <= length Demo.tasks)%nat
    /\ length l1 = length Demo.tasks.
Proof.
  eexists. split; [vm_compute; reflexivity|].
  eapply (proj1 (answer_parser_cursor_advances
                   Demo.RE_ANSWER_TEXT Demo.RE_PART_ANSWER Demo.RE_TASK_ID
                   Demo.ABSENT demo_search Demo.int_literal)
            Demo.block 3%nat 14 Demo.tasks (Demo.a_task "15") 5%nat 16).
  - reflexivity.
  - vm_compute. reflexivity.
Defined.

Lemma opening_task_without_number_witness :
  let data := map strip Demo.doc_opening in
  exists st1 st2 st3 st4,
    demo_parser_step data initial (u "1. Натуральные числа")
    = Ok (Continue st1)
    /\ demo_parser_step data st1 (u "15. Где?") = Ok (Continue st2)
    /\ demo_parser_step data st2 (u "1.1. Сложение") = Ok (Continue st3)
    /\ demo_parser_step data st3 (u "б) Столько?") = Ok (Continue st4)
    /\ map id_tasks_book (tasks_data st4) = [u "15"; u "15.б"]
    /\ exists before t0 suffix,
         last (tasks_data st3) = Some before
         /\ Some (u "б)") = Some suffix
         /\ tasks_data st4 !! length (tasks_data st3) = Some t0
         /\ id_tasks_book t0
            = continuation_id (id_tasks_book before) suffix.
Proof.
  intros data. do 4 eexists.
  do 4 (split; [vm_compute; reflexivity|]).
  split; [reflexivity|].
  eapply (opening_task_without_number
            Demo.RE_CHAPTER Demo.RE_SUPREME_CHAPTER Demo.RE_TASK demo_search
            Demo.int_literal Demo.lower data _ (u "б) Столько?")
            Demo.task_b).
  - vm_compute. reflexivity.
  - reflexivity.
  - reflexivity.
  - reflexivity.
  - vm_compute. reflexivity.
  - reflexivity.
Defined.
